(** * td/telegram/PhotoSize.cpp: thumbnail descriptors

    A shallow embedding of the photo-size decoders, the minithumbnail
    reconstruction and the quality comparator of [PhotoSize.cpp], with the
    properties of the descriptors they produce.

    Conventions.  C++ integers are [Z]; the width of each one is stated where
    it matters ([narrow_cast], [get_pixel_count]).  A [std::string] or a
    [BufferSlice] holding binary data is a [list byte]; the text of a log line
    or of a file name is a [string].  Code that logs, registers files or can
    stop on a failed [CHECK] runs in the monad [M] of section [Decoders]. *)

From Stdlib Require Import ZArith List Bool Lia.
From Stdlib Require Import Strings.String Strings.Ascii Strings.Byte.
From Stdlib Require Import Permutation Sorted Orders Mergesort.
From Stdlib Require Import Floats.PrimFloat.
From Stdlib Require Import DecimalString.
From Stdlib Require Floats.FloatAxioms Floats.SpecFloat Floats.FloatOps.
Import ListNotations.

Local Open Scope Z_scope.

(** ** Data model *)

Definition bytes := list byte.

(** [static_cast<uint8>(c)] of a [char]. *)
Definition uint8_of_char (c : byte) : Z := Z.of_N (Byte.to_N c).

(** [struct Dimensions]: two [uint16] fields, as [get_dimension] and
    [get_pixel_count] show. *)
Record Dimensions := mkDimensions { width : Z; height : Z }.

Definition Dimensions_default : Dimensions := mkDimensions 0 0.

(** Modelled from the spec: [FileId] is declared in td/telegram/files/FileId.h,
    which is not part of this file.  It is the opaque handle whose value
    [get()] the comparator reads; the default handle is the invalid one. *)
Record FileId := mkFileId { FileId_get : Z }.

Definition FileId_default : FileId := mkFileId 0.
Definition FileId_is_valid (f : FileId) : bool := 0 <? FileId_get f.
Definition FileId_eqb (a b : FileId) : bool := FileId_get a =? FileId_get b.

(** Modelled from the spec: [struct PhotoSize] is declared in PhotoSize.h; the
    fields are the five that [operator==] and [operator<<] below read, with
    the types of section 3 of the specification. *)
Record PhotoSize := mkPhotoSize {
  type : Z;
  dimensions : Dimensions;
  size : Z;
  file_id : FileId;
  progressive_sizes : list Z
}.

Definition PhotoSize_default : PhotoSize :=
  mkPhotoSize 0 Dimensions_default 0 FileId_default [].

(** Modelled from the spec: [struct AnimationSize] is declared in PhotoSize.h;
    it is a [PhotoSize] with the timestamp of the main frame, 0.0 by
    default. *)
Record AnimationSize := mkAnimationSize {
  as_photo_size : PhotoSize;
  main_frame_timestamp : float
}.

Definition AnimationSize_default : AnimationSize :=
  mkAnimationSize PhotoSize_default 0%float.

(** The ranges of the field types. *)
Definition is_uint16 (z : Z) : Prop := 0 <= z <= 65535.
Definition is_byte_tag (z : Z) : Prop := 0 <= z <= 255.

Definition Dimensions_typed (d : Dimensions) : Prop :=
  is_uint16 (width d) /\ is_uint16 (height d).

(** The all-or-nothing invariant of [Dimensions]. *)
Definition Dimensions_inv (d : Dimensions) : Prop :=
  (width d <> 0 /\ height d <> 0) \/ (width d = 0 /\ height d = 0).

Definition PhotoSize_typed (p : PhotoSize) : Prop :=
  is_byte_tag (type p) /\ Dimensions_typed (dimensions p).

(** ** Pixel count, equality and the quality order *)

(** [static_cast<uint32>(width) * static_cast<uint32>(height)], a product of
    32-bit unsigned integers. *)
Definition get_pixel_count (d : Dimensions) : Z :=
  (width d * height d) mod 2 ^ 32.

Definition Dimensions_eqb (lhs rhs : Dimensions) : bool :=
  (width lhs =? width rhs) && (height lhs =? height rhs).

(** [operator==] of two vectors of [int32]: same length, same elements. *)
Fixpoint list_Z_eqb (a b : list Z) : bool :=
  match a, b with
  | [], [] => true
  | x :: a', y :: b' => (x =? y) && list_Z_eqb a' b'
  | _, _ => false
  end.

(** [operator==(const PhotoSize &, const PhotoSize &)]. *)
Definition PhotoSize_eqb (lhs rhs : PhotoSize) : bool :=
  (type lhs =? type rhs) && Dimensions_eqb (dimensions lhs) (dimensions rhs)
  && (size lhs =? size rhs) && FileId_eqb (file_id lhs) (file_id rhs)
  && list_Z_eqb (progressive_sizes lhs) (progressive_sizes rhs).

(** The tag 't'. *)
Definition tag_t : Z := 116.

(** [lhs.type == 't' ? -1 : lhs.type]. *)
Definition type_key (t : Z) : Z := if t =? tag_t then -1 else t.

(** [operator<(const PhotoSize &, const PhotoSize &)]. *)
Definition PhotoSize_ltb (lhs rhs : PhotoSize) : bool :=
  if negb (size lhs =? size rhs) then size lhs <? size rhs
  else
    let lhs_pixels := get_pixel_count (dimensions lhs) in
    let rhs_pixels := get_pixel_count (dimensions rhs) in
    if negb (lhs_pixels =? rhs_pixels) then lhs_pixels <? rhs_pixels
    else
      let lhs_type := type_key (type lhs) in
      let rhs_type := type_key (type rhs) in
      if negb (lhs_type =? rhs_type) then lhs_type <? rhs_type
      else if negb (FileId_eqb (file_id lhs) (file_id rhs))
           then FileId_get (file_id lhs) <? FileId_get (file_id rhs)
           else width (dimensions lhs) <? width (dimensions rhs).

(** The five keys of a descriptor, in the order the comparator reads them. *)
Definition sort_key (p : PhotoSize) : Z * Z * Z * Z * Z :=
  (size p, get_pixel_count (dimensions p), type_key (type p),
   FileId_get (file_id p), width (dimensions p)).

(** Lexicographic order on five integer keys. *)
Definition lex5 (a b : Z * Z * Z * Z * Z) : Prop :=
  let '(a1, a2, a3, a4, a5) := a in
  let '(b1, b2, b3, b4, b5) := b in
  a1 < b1 \/ (a1 = b1 /\
  (a2 < b2 \/ (a2 = b2 /\
  (a3 < b3 \/ (a3 = b3 /\
  (a4 < b4 \/ (a4 = b4 /\ a5 < b5))))))).


(** ** Minithumbnail reconstruction *)

(** Modelled from the spec: [base64_decode] is td/utils/base64.h, which is not
    part of this file.  It is the decoder of RFC 4648 with the standard
    alphabet; a character outside the alphabet or a dangling single character
    is an error. *)
Definition base64_value (c : ascii) : option N :=
  let n := N_of_ascii c in
  if (65 <=? n)%N && (n <=? 90)%N then Some (n - 65)%N
  else if (97 <=? n)%N && (n <=? 122)%N then Some (n - 71)%N
  else if (48 <=? n)%N && (n <=? 57)%N then Some (n + 4)%N
  else if (n =? 43)%N then Some 62%N
  else if (n =? 47)%N then Some 63%N
  else None.

Definition is_padding (c : ascii) : bool := (N_of_ascii c =? 61)%N.

(** The characters of the text up to its padding, as 6-bit values. *)
Fixpoint base64_sextets (s : string) : option (list N) :=
  match s with
  | EmptyString => Some []
  | String c rest =>
      if is_padding c then
        match rest with
        | EmptyString => Some []
        | String c' EmptyString => if is_padding c' then Some [] else None
        | _ => None
        end
      else
        match base64_value c, base64_sextets rest with
        | Some v, Some vs => Some (v :: vs)
        | _, _ => None
        end
  end.

Definition byte_of_N (n : N) : byte :=
  match Byte.of_N (n mod 256) with Some b => b | None => x00 end.

Fixpoint base64_bytes (l : list N) : option bytes :=
  match l with
  | [] => Some []
  | [_] => None
  | [a; b] => Some [byte_of_N (a * 4 + b / 16)]
  | [a; b; c] => Some [byte_of_N (a * 4 + b / 16); byte_of_N (b * 16 + c / 4)]
  | a :: b :: c :: d :: rest =>
      match base64_bytes rest with
      | Some tail =>
          Some (byte_of_N (a * 4 + b / 16) :: byte_of_N (b * 16 + c / 4)
                :: byte_of_N (c * 64 + d) :: tail)
      | None => None
      end
  end%N.

Definition base64_decode (s : string) : option bytes :=
  match base64_sextets s with
  | Some l => base64_bytes l
  | None => None
  end.

(** [Result<string>::move_as_ok()] on the two constants below, which decode. *)
Definition move_as_ok (r : option bytes) : bytes :=
  match r with Some b => b | None => [] end.

Definition header_base64 : string :=
  ("/9j/4AAQSkZJRgABAQAAAQABAAD/2wBDACgcHiMeGSgjISMtKygwPGRBPDc3PHtY" ++
  "XUlkkYCZlo+AjIqgtObDoKrarYqMyP/L2u71////m8H////6/+b9//j/2wBDASst" ++
  "LTw1PHZBQXb4pYyl+Pj4+Pj4+Pj4+Pj4+Pj4+Pj4+Pj4+Pj4+Pj4+Pj4+Pj4+Pj4" ++
  "+Pj4+Pj4+Pj4+Pj4+Pj/wAARCAAAAAADASIAAhEBAxEB/8QAHwAAAQUBAQEBAQEA" ++
  "AAAAAAAAAAECAwQFBgcICQoL/8QAtRAAAgEDAwIEAwUFBAQAAAF9AQIDAAQRBRIh" ++
  "MUEGE1FhByJxFDKBkaEII0KxwRVS0fAkM2JyggkKFhcYGRolJicoKSo0NTY3ODk6" ++
  "Q0RFRkdISUpTVFVWV1hZWmNkZWZnaGlqc3R1dnd4eXqDhIWGh4iJipKTlJWWl5iZ" ++
  "mqKjpKWmp6ipqrKztLW2t7i5usLDxMXGx8jJytLT1NXW19jZ2uHi4+Tl5ufo6erx" ++
  "8vP09fb3+Pn6/8QAHwEAAwEBAQEBAQEBAQAAAAAAAAECAwQFBgcICQoL/8QAtREA" ++
  "AgECBAQDBAcFBAQAAQJ3AAECAxEEBSExBhJBUQdhcRMiMoEIFEKRobHBCSMzUvAV" ++
  "YnLRChYkNOEl8RcYGRomJygpKjU2Nzg5OkNERUZHSElKU1RVVldYWVpjZGVmZ2hp" ++
  "anN0dXZ3eHl6goOEhYaHiImKkpOUlZaXmJmaoqOkpaanqKmqsrO0tba3uLm6wsPE" ++
  "xcbHyMnK0tPU1dbX2Nna4uPk5ebn6Onq8vP09fb3+Pn6/9oADAMBAAIRAxEAPwA=")%string.

(** [static const string header]. *)
Definition header : bytes := move_as_ok (base64_decode header_base64).

(** [static const string footer]. *)
Definition footer : bytes := move_as_ok (base64_decode "/9k=").

(** [td_api::minithumbnail]. *)
Record minithumbnail := mkMinithumbnail {
  width_ : Z;
  height_ : Z;
  data_ : bytes
}.

(** [s.substr(pos)] and [s.substr(pos, n)]: [None] is the [std::out_of_range]
    that a position past the end raises. *)
Definition substr (s : bytes) (pos : nat) (n : option nat) : option bytes :=
  if (pos <=? List.length s)%nat then
    Some (match n with
          | Some k => firstn k (skipn pos s)
          | None => skipn pos s
          end)
  else None.

(** [s[i]] for [i < s.size()]; [None] is an access out of range. *)
Definition char_at (s : bytes) (i : nat) : option byte := nth_error s i.

Definition option_bind {A B} (o : option A) (f : A -> option B) : option B :=
  match o with Some a => f a | None => None end.

Notation "'let?' x ':=' o 'in' k" := (option_bind o (fun x => k))
  (at level 10, x name, o at level 100, k at level 200).

(** [get_minithumbnail_object].  The outer [option] is [None] when an access
    to a string is out of range; the inner one is the returned pointer, [None]
    for [nullptr]. *)
Definition get_minithumbnail_object (packed : bytes)
  : option (option minithumbnail) :=
  if (List.length packed <? 3)%nat then Some None
  else
    let? tag := char_at packed 0 in
    if Byte.eqb tag x01 then
      let? packed_1 := char_at packed 1 in
      let? packed_2 := char_at packed 2 in
      let? header_head := substr header 0 (Some 164%nat) in
      let? header_165 := char_at header 165 in
      let? header_tail := substr header 167 None in
      let? payload := substr packed 3 None in
      Some (Some (mkMinithumbnail
                    (uint8_of_char packed_2)
                    (uint8_of_char packed_1)
                    (header_head ++ [packed_1] ++ [header_165] ++ [packed_2]
                     ++ header_tail ++ payload ++ footer)))
    else Some None.

(** ** Wire records and the values the decoders exchange *)

(** [enum class PhotoFormat], as the two switches over it list it. *)
Inductive PhotoFormat := Jpeg | Png | Webp | Gif | Tgs | Mpeg4 | Webm.

Definition PhotoFormat_eqb (a b : PhotoFormat) : bool :=
  match a, b with
  | Jpeg, Jpeg | Png, Png | Webp, Webp | Gif, Gif
  | Tgs, Tgs | Mpeg4, Mpeg4 | Webm, Webm => true
  | _, _ => false
  end.

(** [operator<<(StringBuilder &, PhotoFormat)]. *)
Definition PhotoFormat_to_string (format : PhotoFormat) : string :=
  match format with
  | Jpeg => "jpg"
  | Png => "png"
  | Webp => "webp"
  | Gif => "gif"
  | Tgs => "tgs"
  | Mpeg4 => "mp4"
  | Webm => "webm"
  end.

(** Modelled from the spec: [FileType] is declared in files/FileType.h; the
    decoders below tell the value [Thumbnail] from the others. *)
Inductive FileType :=
| FileType_Thumbnail
| FileType_other (code : Z).

Definition FileType_is_Thumbnail (t : FileType) : bool :=
  match t with FileType_Thumbnail => true | _ => false end.

(** Modelled from the spec: [PhotoSizeSource] is declared in
    PhotoSizeSource.h.  A source of kind thumbnail carries the file type and
    the mutable thumbnail type; the other kinds are opaque here. *)
Inductive PhotoSizeSource :=
| Source_Thumbnail (file_type : FileType) (thumbnail_type : Z)
| Source_other (code : Z).

Definition PhotoSizeSource_is_Thumbnail (s : PhotoSizeSource) : bool :=
  match s with Source_Thumbnail _ _ => true | Source_other _ => false end.

(** [source.thumbnail().thumbnail_type = t]. *)
Definition set_thumbnail_type (s : PhotoSizeSource) (t : Z) : PhotoSizeSource :=
  match s with
  | Source_Thumbnail ft _ => Source_Thumbnail ft t
  | Source_other c => Source_other c
  end.

Inductive DialogType :=
| DialogType_None | DialogType_User | DialogType_Chat
| DialogType_Channel | DialogType_SecretChat.

Definition DialogType_is_SecretChat (t : DialogType) : bool :=
  match t with DialogType_SecretChat => true | _ => false end.

(** The two values of [FileLocationSource] that this file passes on. *)
Inductive FileLocationSource := FromUser | FromServer.

(** The two constructors of [FullRemoteFileLocation] that this file calls. *)
Inductive FullRemoteFileLocation :=
| PhotoRemoteLocation (source : PhotoSizeSource) (id access_hash : Z)
                      (dc_id : Z) (file_reference : bytes)
| WebRemoteLocation (file_type : FileType) (url : string) (access_hash : Z).

(** [telegram_api::PhotoSize] and its six constructors. *)
Inductive telegram_api_PhotoSize :=
| photoSizeEmpty (type_ : string)
| photoSize (type_ : string) (w_ h_ size_ : Z)
| photoCachedSize (type_ : string) (w_ h_ : Z) (bytes_ : bytes)
| photoStrippedSize (type_ : string) (bytes_ : bytes)
| photoSizeProgressive (type_ : string) (w_ h_ : Z) (sizes_ : list Z)
| photoPathSize (type_ : string) (bytes_ : bytes).

(** [telegram_api::videoSize]. *)
Record videoSize := mkVideoSize {
  video_flags_ : Z;
  video_type_ : string;
  video_w_ : Z;
  video_h_ : Z;
  video_size_ : Z;
  video_start_ts_ : float
}.

(** [telegram_api::DocumentAttribute], the constructors of the switch in
    [get_web_document_photo_size]. *)
Inductive DocumentAttribute :=
| documentAttributeImageSize (w_ h_ : Z)
| documentAttributeAnimated
| documentAttributeHasStickers
| documentAttributeSticker
| documentAttributeVideo
| documentAttributeAudio
| documentAttributeFilename (file_name_ : string).

(** [telegram_api::WebDocument]. *)
Inductive WebDocument :=
| webDocument (url_ : string) (access_hash_ size_ : Z) (mime_type_ : string)
              (attributes_ : list DocumentAttribute)
| webDocumentNoProxy (url_ : string) (size_ : Z) (mime_type_ : string)
                     (attributes_ : list DocumentAttribute).

(** What is written to the log: the level and the line, one constructor for
    each [LOG] statement of the file, with the values streamed into it. *)
Inductive Level := ERROR | DEBUG.

Inductive LogLine :=
| Wrong_image_dimension (sz : Z) (source : string)
| Receive_photo (format : PhotoFormat) (id : Z) (dc_id : Z)
| Unexpected_JPEG_minithumbnail (id : Z) (source : PhotoSizeSource)
                                (format : PhotoFormat)
| Photo_with_empty_size (id : Z) (source : PhotoSizeSource)
| Unexpected_SVG_minithumbnail (id : Z) (source : PhotoSizeSource)
                               (format : PhotoFormat)
| Wrong_photoSize (type_text : string) (res : PhotoSize)
| Wrong_videoSize_tag (type_text : string)
| Wrong_videoSize_byte (t : Z)
| Cannot_parse_URL (url : string)
| Invalid_URL (url : string)
| Cannot_register_URL
| Unexpected_web_document_attribute (attribute : DocumentAttribute).

Definition LogEntry : Type := Level * LogLine.

(** The kinds of line that the properties below tell apart. *)
Definition is_wrong_image_dimension (e : LogEntry) : bool :=
  match e with (ERROR, Wrong_image_dimension _ _) => true | _ => false end.
Definition is_wrong_photoSize (e : LogEntry) : bool :=
  match e with (ERROR, Wrong_photoSize _ _) => true | _ => false end.
Definition is_wrong_videoSize_tag (e : LogEntry) : bool :=
  match e with (ERROR, Wrong_videoSize_tag _) => true | _ => false end.
Definition is_wrong_videoSize_byte (e : LogEntry) : bool :=
  match e with (ERROR, Wrong_videoSize_byte _) => true | _ => false end.

(** The calls made to the file manager, in order. *)
Inductive Call :=
| Call_register_remote (location : FullRemoteFileLocation)
    (file_location_source : FileLocationSource) (owner_dialog_id : Z)
    (size_arg expected_size : Z) (name : string)
| Call_set_content (fid : FileId) (content : bytes)
| Call_from_persistent_id (persistent_id : string) (file_type : FileType).

(** Field updates of a descriptor. *)
Definition set_type (p : PhotoSize) (t : Z) : PhotoSize :=
  mkPhotoSize t (dimensions p) (size p) (file_id p) (progressive_sizes p).
Definition set_dimensions (p : PhotoSize) (d : Dimensions) : PhotoSize :=
  mkPhotoSize (type p) d (size p) (file_id p) (progressive_sizes p).
Definition set_size (p : PhotoSize) (s : Z) : PhotoSize :=
  mkPhotoSize (type p) (dimensions p) s (file_id p) (progressive_sizes p).
Definition set_file_id (p : PhotoSize) (f : FileId) : PhotoSize :=
  mkPhotoSize (type p) (dimensions p) (size p) f (progressive_sizes p).
Definition set_progressive_sizes (p : PhotoSize) (l : list Z) : PhotoSize :=
  mkPhotoSize (type p) (dimensions p) (size p) (file_id p) l.

(** [static_cast<uint8>(c)] of a character of a text. *)
Definition uint8_of_ascii (c : ascii) : Z := Z.of_N (N_of_ascii c).

(** [s[0]] of a [std::string]: the first character, or the terminating zero
    of the empty string. *)
Definition string_front (s : string) : ascii :=
  match s with
  | EmptyString => Ascii.zero
  | String c _ => c
  end.

(** [s.find(c) != string::npos]. *)
Fixpoint string_contains (c : ascii) (s : string) : bool :=
  match s with
  | EmptyString => false
  | String c' rest => Ascii.eqb c c' || string_contains c rest
  end.

(** [narrow_cast<uint16>] of a 32-bit integer. *)
Definition narrow_cast_uint16 (z : Z) : Z := z mod 2 ^ 16.

Definition int32_max : Z := 2147483647.

(** [std::sort] on a vector of [int32]: merge sort under [<=]. *)
Module Int32Order := OTF_to_TTLB BinInt.Z.
Module Int32Sort := Sort Int32Order.

(** [v.back()] and [v.pop_back()] of a vector that is not empty. *)
Definition back (v : list Z) : Z := last v 0.
Definition pop_back (v : list Z) : list Z := removelast v.

(** ** The decoders *)

(** The collaborators of this file: the file manager with the three methods
    called here, the helpers of other headers, and the flag of
    [telegram_api::videoSize] that marks a start timestamp. *)
Class Collaborators := {
  FileManager : Type;
  register_remote :
    FileManager -> FullRemoteFileLocation -> FileLocationSource -> Z -> Z ->
    Z -> string -> FileId * FileManager;
  set_content : FileManager -> FileId -> bytes -> FileManager;
  from_persistent_id :
    FileManager -> string -> FileType -> option FileId * FileManager;
  DialogId_get_type : Z -> DialogType;
  get_unique_name : PhotoSizeSource -> Z -> string;
  HttpUrl : Type;
  parse_url : string -> option HttpUrl;
  HttpUrl_get_url : HttpUrl -> string;
  HttpUrl_query_ : HttpUrl -> string;
  get_url_query_file_name : string -> string;
  VIDEO_START_TS_MASK : Z
}.

Section Decoders.

Context `{env : Collaborators}.

(** The state a decoder runs in: the file manager, the calls made to it and
    the log. *)
Record World := mkWorld {
  fm : FileManager;
  calls : list Call;
  log : list LogEntry
}.

(** A computation returns a value and the next state, or stops the process
    ([None]: a failed [CHECK]). *)
Definition M (A : Type) : Type := World -> option (A * World).

Definition ret {A} (a : A) : M A := fun w => Some (a, w).

Definition bind {A B} (c : M A) (k : A -> M B) : M B :=
  fun w => match c w with
           | Some (a, w') => k a w'
           | None => None
           end.

Notation "x <- c ;; k" := (bind c (fun x => k))
  (at level 61, c at next level, right associativity).
Notation "c ;; k" := (bind c (fun _ => k))
  (at level 61, right associativity).

Definition LOG (l : Level) (line : LogLine) : M unit :=
  fun w => Some (tt, mkWorld (fm w) (calls w) (log w ++ [(l, line)])).

Definition CHECK (b : bool) : M unit :=
  fun w => if b then Some (tt, w) else None.

(** The process stops: a [CHECK] that has failed. *)
Definition abort {A} : M A := fun _ => None.

Definition when (b : bool) (c : M unit) : M unit := if b then c else ret tt.

(** [st'] comes from [st] by writing [lines] to the log and nothing else. *)
Definition logged (st : World) (lines : list LogEntry) (st' : World) : Prop :=
  st' = mkWorld (fm st) (calls st) (log st ++ lines).

(** [file_manager->register_remote(...)]. *)
Definition call_register_remote (location : FullRemoteFileLocation)
    (source : FileLocationSource) (owner_dialog_id size_arg expected_size : Z)
    (name : string) : M FileId :=
  fun w =>
    let '(fid, fm') :=
      register_remote (fm w) location source owner_dialog_id size_arg
                      expected_size name in
    Some (fid, mkWorld fm'
                 (calls w ++ [Call_register_remote location source
                                owner_dialog_id size_arg expected_size name])
                 (log w)).

(** [file_manager->set_content(file_id, content)]. *)
Definition call_set_content (fid : FileId) (content : bytes) : M unit :=
  fun w => Some (tt, mkWorld (set_content (fm w) fid content)
                       (calls w ++ [Call_set_content fid content]) (log w)).

(** [file_manager->from_persistent_id(persistent_id, file_type)]. *)
Definition call_from_persistent_id (persistent_id : string)
    (file_type : FileType) : M (option FileId) :=
  fun w =>
    let '(r, fm') := from_persistent_id (fm w) persistent_id file_type in
    Some (r, mkWorld fm'
               (calls w ++ [Call_from_persistent_id persistent_id file_type])
               (log w)).

(** [get_dimension]. *)
Definition get_dimension (sz : Z) (source : string) : M Z :=
  if (sz <? 0) || (65535 <? sz) then
    LOG ERROR (Wrong_image_dimension sz source) ;;
    ret 0
  else ret (narrow_cast_uint16 sz).

(** [get_dimensions]. *)
Definition get_dimensions (w h : Z) (source : string) : M Dimensions :=
  result_width <- get_dimension w source ;;
  result_height <- get_dimension h source ;;
  if (result_width =? 0) || (result_height =? 0)
  then ret (mkDimensions 0 0)
  else ret (mkDimensions result_width result_height).

(** [register_photo_size]. *)
Definition register_photo_size (source : PhotoSizeSource) (id access_hash : Z)
    (file_reference : bytes) (owner_dialog_id file_size dc_id : Z)
    (format : PhotoFormat) : M FileId :=
  LOG DEBUG (Receive_photo format id dc_id) ;;
  let suggested_name :=
    (get_unique_name source id ++ "." ++ PhotoFormat_to_string format)%string in
  let file_location_source :=
    if DialogType_is_SecretChat (DialogId_get_type owner_dialog_id)
    then FromUser else FromServer in
  call_register_remote
    (PhotoRemoteLocation source id access_hash dc_id file_reference)
    file_location_source owner_dialog_id file_size 0 suggested_name.

(** The end of [get_photo_size], after the switch: the type tag, the
    registration and the content. *)
Definition get_photo_size_tail (source : PhotoSizeSource) (id access_hash : Z)
    (file_reference : bytes) (dc_id owner_dialog_id : Z)
    (format : PhotoFormat) (type_text : string) (res : PhotoSize)
    (content : bytes) : M (PhotoSize + bytes) :=
  res <- (if negb (String.length type_text =? 1)%nat then
            LOG ERROR (Wrong_photoSize type_text res) ;;
            ret (set_type res 0)
          else
            let res := set_type res (uint8_of_ascii (string_front type_text)) in
            if 128 <=? type res then
              LOG ERROR (Wrong_photoSize type_text res) ;;
              ret (set_type res 0)
            else ret res) ;;
  let source :=
    if PhotoSizeSource_is_Thumbnail source
    then set_thumbnail_type source (type res) else source in
  fid <- register_photo_size source id access_hash file_reference
           owner_dialog_id (size res) dc_id format ;;
  let res := set_file_id res fid in
  when (negb (List.length content =? 0)%nat) (call_set_content fid content) ;;
  ret (inl res).

(** [get_photo_size].  The result is the [Variant<PhotoSize, string>]: a
    descriptor on the left, inline bytes on the right. *)
Definition get_photo_size (source : PhotoSizeSource) (id access_hash : Z)
    (file_reference : bytes) (dc_id owner_dialog_id : Z)
    (size_ptr : option telegram_api_PhotoSize) (format : PhotoFormat)
  : M (PhotoSize + bytes) :=
  match size_ptr with
  | None => abort
  | Some wire =>
    let res := PhotoSize_default in
    let tail := get_photo_size_tail source id access_hash file_reference
                  dc_id owner_dialog_id format in
    match wire with
    | photoSizeEmpty _ => ret (inl res)
    | photoSize type_ w_ h_ size_ =>
        d <- get_dimensions w_ h_ "photoSize" ;;
        let res := set_dimensions res d in
        let res := set_size res size_ in
        tail type_ res []
    | photoCachedSize type_ w_ h_ bytes_ =>
        CHECK (Z.of_nat (List.length bytes_) <=? int32_max) ;;
        d <- get_dimensions w_ h_ "photoCachedSize" ;;
        let res := set_dimensions res d in
        let res := set_size res (Z.of_nat (List.length bytes_)) in
        tail type_ res bytes_
    | photoStrippedSize _ bytes_ =>
        if negb (PhotoFormat_eqb format Jpeg) then
          LOG ERROR (Unexpected_JPEG_minithumbnail id source format) ;;
          ret (inl res)
        else ret (inr bytes_)
    | photoSizeProgressive type_ w_ h_ sizes_ =>
        if (List.length sizes_ =? 0)%nat then
          LOG ERROR (Photo_with_empty_size id source) ;;
          ret (inl res)
        else
          let sizes_ := Int32Sort.sort sizes_ in
          d <- get_dimensions w_ h_ "photoSizeProgressive" ;;
          let res := set_dimensions res d in
          let res := set_size res (back sizes_) in
          let sizes_ := pop_back sizes_ in
          let res := set_progressive_sizes res sizes_ in
          tail type_ res []
    | photoPathSize _ bytes_ =>
        if negb (PhotoFormat_eqb format Tgs)
           && negb (PhotoFormat_eqb format Webp)
           && negb (PhotoFormat_eqb format Webm) then
          LOG ERROR (Unexpected_SVG_minithumbnail id source format) ;;
          ret (inl res)
        else ret (inr bytes_)
    end
  end.

(** [get_animation_size]. *)
Definition get_animation_size (source : PhotoSizeSource) (id access_hash : Z)
    (file_reference : bytes) (dc_id owner_dialog_id : Z)
    (size_ptr : option videoSize) : M AnimationSize :=
  match size_ptr with
  | None => abort
  | Some sz =>
    let res := PhotoSize_default in
    when (negb (String.eqb (video_type_ sz) "v")
          && negb (String.eqb (video_type_ sz) "u"))
         (LOG ERROR (Wrong_videoSize_tag (video_type_ sz))) ;;
    let res := set_type res (uint8_of_ascii (string_front (video_type_ sz))) in
    res <- (if 128 <=? type res then
              LOG ERROR (Wrong_videoSize_byte (type res)) ;;
              ret (set_type res 0)
            else ret res) ;;
    d <- get_dimensions (video_w_ sz) (video_h_ sz) "get_animation_size" ;;
    let res := set_dimensions res d in
    let res := set_size res (video_size_ sz) in
    let main_frame_timestamp :=
      if negb (Z.land (video_flags_ sz) VIDEO_START_TS_MASK =? 0)
      then video_start_ts_ sz else 0%float in
    let source :=
      if PhotoSizeSource_is_Thumbnail source
      then set_thumbnail_type source (type res) else source in
    fid <- register_photo_size source id access_hash file_reference
             owner_dialog_id (size res) dc_id Mpeg4 ;;
    ret (mkAnimationSize (set_file_id res fid) main_frame_timestamp)
  end.

(** The loop of [get_web_document_photo_size] over the attributes. *)
Fixpoint web_document_dimensions (attributes : list DocumentAttribute)
    (dims : Dimensions) : M Dimensions :=
  match attributes with
  | [] => ret dims
  | attribute :: rest =>
      dims <- match attribute with
              | documentAttributeImageSize w_ h_ =>
                  get_dimensions w_ h_ "web documentAttributeImageSize"
              | documentAttributeAnimated
              | documentAttributeHasStickers
              | documentAttributeSticker
              | documentAttributeVideo
              | documentAttributeAudio =>
                  LOG ERROR (Unexpected_web_document_attribute attribute) ;;
                  ret dims
              | documentAttributeFilename _ => ret dims
              end ;;
      web_document_dimensions rest dims
  end.

(** The end of [get_web_document_photo_size], after the switch. *)
Definition get_web_document_photo_size_tail (file_type : FileType)
    (fid : FileId) (attributes : list DocumentAttribute) (sz : Z)
    (mime_type : string) : M PhotoSize :=
  CHECK (FileId_is_valid fid) ;;
  let is_animation := String.eqb mime_type "video/mp4" in
  let is_gif := String.eqb mime_type "image/gif" in
  d <- web_document_dimensions attributes Dimensions_default ;;
  let tag :=
    if is_animation then 118
    else if is_gif then 103
    else if FileType_is_Thumbnail file_type then 116 else 110 in
  ret (mkPhotoSize tag d sz fid []).

(** [get_web_document_photo_size]. *)
Definition get_web_document_photo_size (file_type : FileType)
    (owner_dialog_id : Z) (web_document_ptr : option WebDocument)
  : M PhotoSize :=
  match web_document_ptr with
  | None => ret PhotoSize_default
  | Some (webDocument url_ access_hash_ size_ mime_type_ attributes_) =>
      match parse_url url_ with
      | None =>
          LOG ERROR (Cannot_parse_URL url_) ;;
          ret PhotoSize_default
      | Some http_url =>
          let url := HttpUrl_get_url http_url in
          fid <- call_register_remote
                   (WebRemoteLocation file_type url access_hash_) FromServer
                   owner_dialog_id 0 size_
                   (get_url_query_file_name (HttpUrl_query_ http_url)) ;;
          get_web_document_photo_size_tail file_type fid attributes_ size_
            mime_type_
      end
  | Some (webDocumentNoProxy url_ size_ mime_type_ attributes_) =>
      if negb (string_contains "." url_) then
        LOG ERROR (Invalid_URL url_) ;;
        ret PhotoSize_default
      else
        r_file_id <- call_from_persistent_id url_ file_type ;;
        match r_file_id with
        | None =>
            LOG ERROR Cannot_register_URL ;;
            ret PhotoSize_default
        | Some fid =>
            get_web_document_photo_size_tail file_type fid attributes_ size_
              mime_type_
        end
  end.

End Decoders.

(** [operator==(const AnimationSize &, const AnimationSize &)], on IEEE 754
    binary64 numbers; [1e-3] is the [double] nearest to one thousandth. *)
#[warnings="-inexact-float"] Definition tolerance : float := 1e-3%float.

Definition AnimationSize_eqb (lhs rhs : AnimationSize) : bool :=
  PhotoSize_eqb (as_photo_size lhs) (as_photo_size rhs)
  && PrimFloat.ltb
       (PrimFloat.abs (PrimFloat.sub (main_frame_timestamp lhs)
                                     (main_frame_timestamp rhs)))
       tolerance.

(** ** The comparator as the specification words it *)

(** The five keys of section 4.6: byte size, pixel count as the product of
    width and height, the type tag with 't' read as -1, the value of the
    file handle, the width. *)
Definition spec_sort_key (p : PhotoSize) : Z * Z * Z * Z * Z :=
  (size p,
   width (dimensions p) * height (dimensions p),
   (if type p =? tag_t then -1 else type p),
   FileId_get (file_id p),
   width (dimensions p)).

(** The validator of section 4.1, as the specification words it. *)
Definition spec_validate (w h : Z) : Dimensions :=
  if (1 <=? w) && (w <=? 65535) && (1 <=? h) && (h <=? 65535)
  then mkDimensions w h else mkDimensions 0 0.

(** The test of section 4.3 on a wire tag: exactly one byte, of value less
    than 128. *)
Definition tag_accepted (t : string) : bool :=
  (String.length t =? 1)%nat && (uint8_of_ascii (string_front t) <? 128).

(** The tag, the inline content and the declared size of a plain, cached or
    progressive record. *)
Definition wire_type_ (wire : telegram_api_PhotoSize) : string :=
  match wire with
  | photoSizeEmpty t | photoSize t _ _ _ | photoCachedSize t _ _ _
  | photoStrippedSize t _ | photoSizeProgressive t _ _ _
  | photoPathSize t _ => t
  end.

Definition wire_content (wire : telegram_api_PhotoSize) : bytes :=
  match wire with
  | photoCachedSize _ _ _ b => b
  | _ => []
  end.

(** A plain, cached or progressive record whose fields the switch of
    [get_photo_size] extracts: the cached bytes fit a 32-bit size and the
    list of progressive sizes is not empty. *)
Definition fields_extracted (wire : telegram_api_PhotoSize) : Prop :=
  match wire with
  | photoSize _ _ _ _ => True
  | photoCachedSize _ _ _ b => Z.of_nat (List.length b) <= int32_max
  | photoSizeProgressive _ _ _ sizes => sizes <> []
  | _ => False
  end.

(** The descriptor that the switch of [get_photo_size] leaves for such a
    record, before the type tag and the file handle are set. *)
Definition extracted_fields (wire : telegram_api_PhotoSize) : PhotoSize :=
  match wire with
  | photoSize _ w h s =>
      mkPhotoSize 0 (spec_validate w h) s FileId_default []
  | photoCachedSize _ w h b =>
      mkPhotoSize 0 (spec_validate w h) (Z.of_nat (List.length b))
        FileId_default []
  | photoSizeProgressive _ w h sizes =>
      mkPhotoSize 0 (spec_validate w h) (back (Int32Sort.sort sizes))
        FileId_default (pop_back (Int32Sort.sort sizes))
  | _ => PhotoSize_default
  end.

(** ** Concrete collaborators and descriptors *)

(** A file manager that numbers the files it registers; its state is the
    last number handed out. *)
Definition counting_env : Collaborators := {|
  FileManager := Z;
  register_remote := fun fm _ _ _ _ _ _ => (mkFileId (fm + 1), fm + 1);
  set_content := fun fm _ _ => fm;
  from_persistent_id := fun fm _ _ => (Some (mkFileId (fm + 1)), fm + 1);
  DialogId_get_type := fun _ => DialogType_User;
  get_unique_name := fun _ _ => "photo"%string;
  HttpUrl := string;
  parse_url := fun s => Some s;
  HttpUrl_get_url := fun u => u;
  HttpUrl_query_ := fun u => u;
  get_url_query_file_name := fun q => q;
  VIDEO_START_TS_MASK := 1
|}.

Definition world0 : @World counting_env := @mkWorld counting_env 0 [] [].

(** The descriptors A and B of the comparator scenario: 10 bytes, 100 pixels,
    tags 't' and 'n'. *)
Definition descriptor_A : PhotoSize :=
  mkPhotoSize 116 (mkDimensions 10 10) 10 (mkFileId 1) [].
Definition descriptor_B : PhotoSize :=
  mkPhotoSize 110 (mkDimensions 10 10) 10 (mkFileId 1) [].

(** Two descriptors that differ in the progressive sizes only. *)
Definition descriptor_P : PhotoSize :=
  mkPhotoSize 120 (mkDimensions 10 10) 300 (mkFileId 1) [50; 100].
Definition descriptor_Q : PhotoSize :=
  mkPhotoSize 120 (mkDimensions 10 10) 300 (mkFileId 1) [50; 200].

(** The timestamps of the equality scenario. *)
Definition timestamp_1_0000 : float := 1%float.
#[warnings="-inexact-float"] Definition timestamp_1_0009 : float := 1.0009%float.

(** A video size tagged 'x', which is neither 'v' nor 'u'. *)
Definition video_size_x : videoSize :=
  mkVideoSize 0 "x" 320 240 4096 0%float.

(** A cached record with an empty tag and three bytes of content. *)
Definition cached_untagged : telegram_api_PhotoSize :=
  photoCachedSize "" 90 60 [x01; x02; x03].
(** ** The other operators and functions of the file *)

(** [operator!=] on dimensions, descriptors and animation sizes. *)
Definition Dimensions_neqb (lhs rhs : Dimensions) : bool :=
  negb (Dimensions_eqb lhs rhs).

Definition PhotoSize_neqb (lhs rhs : PhotoSize) : bool :=
  negb (PhotoSize_eqb lhs rhs).

Definition AnimationSize_neqb (lhs rhs : AnimationSize) : bool :=
  negb (AnimationSize_eqb lhs rhs).

(** A third timestamp, 0.0009 after [timestamp_1_0009]. *)
#[warnings="-inexact-float"] Definition timestamp_1_0018 : float := 1.0018%float.

(** [td_api::ThumbnailFormat], the seven objects that
    [get_thumbnail_format_object] makes. *)
Inductive ThumbnailFormat :=
| thumbnailFormatJpeg | thumbnailFormatPng | thumbnailFormatWebp
| thumbnailFormatGif | thumbnailFormatTgs | thumbnailFormatMpeg4
| thumbnailFormatWebm.

(** [get_thumbnail_format_object]; the [default] branch is left by no value
    of the enumeration. *)
Definition get_thumbnail_format_object (format : PhotoFormat)
  : ThumbnailFormat :=
  match format with
  | Jpeg => thumbnailFormatJpeg
  | Png => thumbnailFormatPng
  | Webp => thumbnailFormatWebp
  | Gif => thumbnailFormatGif
  | Tgs => thumbnailFormatTgs
  | Mpeg4 => thumbnailFormatMpeg4
  | Webm => thumbnailFormatWebm
  end.

(** The test of [get_dimension] on its input. *)
Definition in_uint16 (z : Z) : bool := (0 <=? z) && (z <=? 65535).

Definition int64_max : Z := 9223372036854775807.

(** [static_cast<uint64>(z)] of a 64-bit integer. *)
Definition uint64_of_int64 (z : Z) : Z := z mod 2 ^ 64.

(** A [uint64] streamed into a [StringBuilder]: its decimal digits. *)
Definition uint64_to_string (z : Z) : string :=
  NilZero.string_of_uint (N.to_uint (Z.to_N z)).

(** The tags 'g', 'n' and 'v'. *)
Definition tag_g : Z := 103.
Definition tag_n : Z := 110.
Definition tag_v : Z := 118.

(** The attributes that the loop of [get_web_document_photo_size] reports as
    unexpected, the one it reads, and the log line of the former. *)
Definition is_unexpected_attribute (a : DocumentAttribute) : bool :=
  match a with
  | documentAttributeAnimated | documentAttributeHasStickers
  | documentAttributeSticker | documentAttributeVideo
  | documentAttributeAudio => true
  | documentAttributeImageSize _ _ | documentAttributeFilename _ => false
  end.

Definition is_image_size (a : DocumentAttribute) : bool :=
  match a with documentAttributeImageSize _ _ => true | _ => false end.

Definition is_unexpected_attribute_line (e : LogEntry) : bool :=
  match e with
  | (ERROR, Unexpected_web_document_attribute _) => true
  | _ => false
  end.

(** The tag that [get_web_document_photo_size] gives a descriptor:
    'v' for MPEG4 video, 'g' for GIF, else 't' in a thumbnail and 'n'
    elsewhere. *)
Definition web_document_type (mime_type : string) (file_type : FileType) : Z :=
  if String.eqb mime_type "video/mp4" then tag_v
  else if String.eqb mime_type "image/gif" then tag_g
  else if FileType_is_Thumbnail file_type then tag_t else tag_n.

(** What the functions below need besides [Collaborators]: two constants of
    other headers, and the method of the file manager that builds the object
    of a file. *)
Class ObjectCollaborators `{env : Collaborators} := {
  FileType_EncryptedThumbnail : FileType;
  DcId_invalid : Z;
  FileObject : Type;
  get_file_object : FileManager -> FileId -> FileObject * FileManager
}.

Section ObjectDecoders.

Context `{objs : ObjectCollaborators}.

Notation "x <- c ;; k" := (bind c (fun x => k))
  (at level 61, c at next level, right associativity).
Notation "c ;; k" := (bind c (fun _ => k))
  (at level 61, right associativity).

(** [td_api::thumbnail]. *)
Record thumbnail := mkThumbnail {
  thumbnail_format_ : ThumbnailFormat;
  thumbnail_width_ : Z;
  thumbnail_height_ : Z;
  thumbnail_file_ : FileObject
}.

(** [file_manager->get_file_object(file_id)]. *)
Definition call_get_file_object (fid : FileId) : M FileObject :=
  fun w =>
    let '(obj, fm') := get_file_object (fm w) fid in
    Some (obj, mkWorld fm' (calls w) (log w)).

(** [get_secret_thumbnail_photo_size]; [random] is the value that
    [Random::secure_int64()] returns, and the [CHECK] is the one of
    [narrow_cast<int32>]. *)
Definition get_secret_thumbnail_photo_size (random : Z) (content : bytes)
    (owner_dialog_id w h : Z) : M PhotoSize :=
  if (List.length content =? 0)%nat then ret PhotoSize_default
  else
    let res := set_type PhotoSize_default tag_t in
    d <- get_dimensions w h "get_secret_thumbnail_photo_size" ;;
    let res := set_dimensions res d in
    CHECK (Z.of_nat (List.length content) <=? int32_max) ;;
    let res := set_size res (Z.of_nat (List.length content)) in
    let dc_id := DcId_invalid in
    let photo_id := - Z.land random int64_max in
    fid <- call_register_remote
             (PhotoRemoteLocation
                (Source_Thumbnail FileType_EncryptedThumbnail tag_t)
                photo_id 0 dc_id [])
             FromServer owner_dialog_id (size res) 0
             (uint64_to_string (uint64_of_int64 photo_id) ++ ".jpg")%string ;;
    let res := set_file_id res fid in
    call_set_content fid content ;;
    ret res.

(** [get_thumbnail_object]; [None] is [nullptr]. *)
Definition get_thumbnail_object (photo_size : PhotoSize)
    (format : PhotoFormat) : M (option thumbnail) :=
  if negb (FileId_is_valid (file_id photo_size)) then ret None
  else
    let format :=
      if PhotoFormat_eqb format Jpeg && (type photo_size =? tag_g)
      then Gif else format in
    file <- call_get_file_object (file_id photo_size) ;;
    ret (Some (mkThumbnail (get_thumbnail_format_object format)
                 (width (dimensions photo_size))
                 (height (dimensions photo_size)) file)).

End ObjectDecoders.

Arguments thumbnail {env objs}.
Arguments mkThumbnail {env objs} _ _ _ _.
Arguments thumbnail_format_ {env objs} _.
Arguments thumbnail_width_ {env objs} _.
Arguments thumbnail_height_ {env objs} _.
Arguments thumbnail_file_ {env objs} _.

(** A file object that is the handle itself, for the runs below. *)
Definition counting_objs : @ObjectCollaborators counting_env := {|
  FileType_EncryptedThumbnail := FileType_other 11;
  DcId_invalid := 0;
  FileObject := FileId;
  get_file_object := fun fm fid => (fid, fm)
|}.

(** A web document by URL: an animated image of 10 by 20 with an audio
    attribute, and one without proxy whose reference has no dot. *)
Definition web_gif : WebDocument :=
  webDocument "https://example.org/a.gif" 7 512 "image/gif"
    [documentAttributeAudio; documentAttributeImageSize 10 20;
     documentAttributeFilename "a.gif"].

Definition web_no_dot : WebDocument :=
  webDocumentNoProxy "reference" 512 "image/png" [].

(** ** Facts about the comparator *)

Lemma pixel_count_exact (d : Dimensions) :
  Dimensions_typed d -> get_pixel_count d = width d * height d.
Proof.
  intros [Hw Hh]. unfold get_pixel_count, is_uint16 in *.
  apply Z.mod_small. nia.
Qed.

Lemma PhotoSize_ltb_lex (lhs rhs : PhotoSize) :
  PhotoSize_ltb lhs rhs = true <-> lex5 (sort_key lhs) (sort_key rhs).
Proof.
  unfold PhotoSize_ltb, sort_key, lex5, FileId_eqb.
  destruct (Z.eqb_spec (size lhs) (size rhs)) as [E1 | E1]; cbn [negb];
    [ | rewrite Z.ltb_lt; lia ].
  destruct (Z.eqb_spec (get_pixel_count (dimensions lhs))
                       (get_pixel_count (dimensions rhs))) as [E2 | E2];
    cbn [negb]; [ | rewrite Z.ltb_lt; lia ].
  destruct (Z.eqb_spec (type_key (type lhs)) (type_key (type rhs)))
    as [E3 | E3]; cbn [negb]; [ | rewrite Z.ltb_lt; lia ].
  destruct (Z.eqb_spec (FileId_get (file_id lhs)) (FileId_get (file_id rhs)))
    as [E4 | E4]; cbn [negb]; rewrite Z.ltb_lt; lia.
Qed.

Lemma lex5_trans (a b c : Z * Z * Z * Z * Z) :
  lex5 a b -> lex5 b c -> lex5 a c.
Proof.
  destruct a as [[[[a1 a2] a3] a4] a5], b as [[[[b1 b2] b3] b4] b5],
           c as [[[[c1 c2] c3] c4] c5].
  unfold lex5. lia.
Qed.

Lemma lex5_irrefl (a : Z * Z * Z * Z * Z) : ~ lex5 a a.
Proof.
  destruct a as [[[[a1 a2] a3] a4] a5]. unfold lex5. lia.
Qed.

Lemma lex5_total (a b : Z * Z * Z * Z * Z) :
  a <> b -> lex5 a b \/ lex5 b a.
Proof.
  destruct a as [[[[a1 a2] a3] a4] a5], b as [[[[b1 b2] b3] b4] b5].
  intros Hne. unfold lex5.
  destruct (Z.eq_dec a1 b1); [ | lia ].
  destruct (Z.eq_dec a2 b2); [ | lia ].
  destruct (Z.eq_dec a3 b3); [ | lia ].
  destruct (Z.eq_dec a4 b4); [ | lia ].
  destruct (Z.eq_dec a5 b5); [ | lia ].
  subst. congruence.
Qed.

Lemma type_key_inj (s t : Z) :
  0 <= s -> 0 <= t -> type_key s = type_key t -> s = t.
Proof.
  unfold type_key, tag_t.
  destruct (Z.eqb_spec s 116), (Z.eqb_spec t 116); lia.
Qed.

Lemma type_key_t_least (t : Z) :
  0 <= t -> t <> tag_t -> type_key tag_t < type_key t.
Proof.
  unfold type_key, tag_t. intros H0 Hne.
  destruct (Z.eqb_spec t 116); [ contradiction | cbn; lia ].
Qed.

Lemma list_Z_eqb_eq (a b : list Z) : list_Z_eqb a b = true <-> a = b.
Proof.
  revert b. induction a as [ | x a IH]; intros [ | y b]; cbn;
    try (split; [ reflexivity || discriminate | reflexivity || discriminate ]).
  rewrite andb_true_iff, Z.eqb_eq, IH. split.
  - intros [-> ->]. reflexivity.
  - intros H. injection H as -> ->. auto.
Qed.

Lemma PhotoSize_eqb_eq (a b : PhotoSize) :
  PhotoSize_eqb a b = true <-> a = b.
Proof.
  unfold PhotoSize_eqb, Dimensions_eqb, FileId_eqb.
  destruct a as [ta [wa ha] sa [fa] pa], b as [tb [wb hb] sb [fb] pb].
  cbn [type dimensions size file_id progressive_sizes width height FileId_get].
  rewrite !andb_true_iff, !Z.eqb_eq, list_Z_eqb_eq. split.
  - intros [[[[Ht [Hw Hh]] Hs] Hf] Hp]. congruence.
  - intros H. injection H as Ht Hw Hh Hs Hf Hp. auto 10.
Qed.

Lemma typed_keys_differ (a b : PhotoSize) :
  PhotoSize_typed a -> Dimensions_inv (dimensions a) ->
  PhotoSize_typed b -> Dimensions_inv (dimensions b) ->
  type a <> type b \/ dimensions a <> dimensions b \/ size a <> size b
    \/ file_id a <> file_id b ->
  sort_key a <> sort_key b.
Proof.
  intros [Hta Hda] Hia [Htb Hdb] Hib Hne Hk.
  unfold sort_key in Hk. injection Hk as Hs Hp Ht Hf Hw.
  rewrite !pixel_count_exact in Hp by assumption.
  apply type_key_inj in Ht; [ | apply Hta | apply Htb ].
  destruct a as [ta [wa ha] sa [fa] pa], b as [tb [wb hb] sb [fb] pb].
  unfold Dimensions_inv, Dimensions_typed, is_uint16 in *. cbn in *. subst.
  assert (ha = hb) by nia. subst.
  destruct Hne as [H | [H | [H | H]]]; congruence.
Qed.

(** * The quality comparator *)

(** C1: [operator<] compares byte size, then pixel count (width times
    height), then the type tag with 't' read as -1, then the value of the
    file handle, then the width, each ascending; and a descriptor tagged 't'
    is less than one of equal size and pixel count that carries another
    tag. *)
Theorem PhotoSize_ltb_key_order (lhs rhs : PhotoSize) :
  PhotoSize_typed lhs -> PhotoSize_typed rhs ->
  (PhotoSize_ltb lhs rhs = true <->
   lex5 (spec_sort_key lhs) (spec_sort_key rhs))
  /\ (size lhs = size rhs ->
      width (dimensions lhs) * height (dimensions lhs)
      = width (dimensions rhs) * height (dimensions rhs) ->
      type lhs = tag_t -> type rhs <> tag_t ->
      PhotoSize_ltb lhs rhs = true).
Proof.
  intros [Htl Hdl] [Htr Hdr].
  assert (Hkey : forall p, Dimensions_typed (dimensions p) ->
                           sort_key p = spec_sort_key p).
  { intros p Hp. unfold sort_key, spec_sort_key.
    now rewrite pixel_count_exact. }
  split.
  - rewrite PhotoSize_ltb_lex, !Hkey by assumption. reflexivity.
  - intros Hs Hp Ht Hne.
    apply PhotoSize_ltb_lex. rewrite !Hkey by assumption.
    unfold spec_sort_key, lex5. fold (type_key (type lhs)) (type_key (type rhs)).
    rewrite Ht.
    pose proof (type_key_t_least (type rhs) (proj1 Htr) Hne). lia.
Qed.

Lemma PhotoSize_ltb_key_order_witness :
  PhotoSize_ltb descriptor_A descriptor_B = true.
Proof.
  assert (Ha : PhotoSize_typed descriptor_A)
    by (unfold PhotoSize_typed, Dimensions_typed, is_byte_tag, is_uint16; cbn; lia).
  assert (Hb : PhotoSize_typed descriptor_B)
    by (unfold PhotoSize_typed, Dimensions_typed, is_byte_tag, is_uint16; cbn; lia).
  apply (proj2 (PhotoSize_ltb_key_order descriptor_A descriptor_B Ha Hb));
    [ reflexivity | reflexivity | reflexivity | discriminate ].
Defined.

(** C6, as the code has it: [operator<] is transitive and asymmetric on all
    descriptors; two descriptors that differ in the type tag, the dimensions,
    the size or the file handle are ordered one way and not the other; two
    descriptors that agree on these four fields are not ordered, whatever
    their progressive sizes. *)
Theorem PhotoSize_ltb_strict_order :
  (forall a b c, PhotoSize_ltb a b = true -> PhotoSize_ltb b c = true ->
                 PhotoSize_ltb a c = true)
  /\ (forall a b, PhotoSize_ltb a b = true -> PhotoSize_ltb b a = false)
  /\ (forall a b,
        PhotoSize_typed a -> Dimensions_inv (dimensions a) ->
        PhotoSize_typed b -> Dimensions_inv (dimensions b) ->
        type a <> type b \/ dimensions a <> dimensions b
          \/ size a <> size b \/ file_id a <> file_id b ->
        (PhotoSize_ltb a b = true /\ PhotoSize_ltb b a = false)
        \/ (PhotoSize_ltb a b = false /\ PhotoSize_ltb b a = true))
  /\ (forall a b,
        type a = type b -> dimensions a = dimensions b ->
        size a = size b -> file_id a = file_id b ->
        PhotoSize_ltb a b = false /\ PhotoSize_ltb b a = false).
Proof.
  assert (Hasym : forall a b, PhotoSize_ltb a b = true ->
                              PhotoSize_ltb b a = false).
  { intros a b Hab. destruct (PhotoSize_ltb b a) eqn:Hba; [ | reflexivity ].
    apply PhotoSize_ltb_lex in Hab, Hba.
    destruct (lex5_irrefl _ (lex5_trans _ _ _ Hab Hba)). }
  split; [ | split; [ exact Hasym | split ] ].
  - intros a b c Hab Hbc. apply PhotoSize_ltb_lex in Hab, Hbc.
    apply PhotoSize_ltb_lex. eapply lex5_trans; eassumption.
  - intros a b Ha Hia Hb Hib Hne.
    destruct (lex5_total (sort_key a) (sort_key b)) as [H | H].
    + now apply typed_keys_differ.
    + apply PhotoSize_ltb_lex in H. left. split; [ exact H | now apply Hasym ].
    + apply PhotoSize_ltb_lex in H. right. split; [ now apply Hasym | exact H ].
  - intros a b Ht Hd Hs Hf.
    assert (Hk : sort_key a = sort_key b)
      by (unfold sort_key; now rewrite Ht, Hd, Hs, Hf).
    split.
    + destruct (PhotoSize_ltb a b) eqn:H; [ | reflexivity ].
      apply PhotoSize_ltb_lex in H. rewrite Hk in H.
      destruct (lex5_irrefl _ H).
    + destruct (PhotoSize_ltb b a) eqn:H; [ | reflexivity ].
      apply PhotoSize_ltb_lex in H. rewrite Hk in H.
      destruct (lex5_irrefl _ H).
Qed.

Lemma PhotoSize_ltb_strict_order_witness :
  (PhotoSize_ltb descriptor_A descriptor_B = true
   /\ PhotoSize_ltb descriptor_B descriptor_A = false)
  \/ (PhotoSize_ltb descriptor_A descriptor_B = false
      /\ PhotoSize_ltb descriptor_B descriptor_A = true).
Proof.
  apply (proj1 (proj2 (proj2 PhotoSize_ltb_strict_order))
           descriptor_A descriptor_B);
    unfold PhotoSize_typed, Dimensions_typed, Dimensions_inv, is_byte_tag,
      is_uint16; cbn; lia.
Defined.

(** C6, as the specification states it, fails: these two descriptors are not
    equal, and neither is less than the other. *)
Lemma PhotoSize_ltb_not_total :
  PhotoSize_eqb descriptor_P descriptor_Q = false
  /\ PhotoSize_ltb descriptor_P descriptor_Q = false
  /\ PhotoSize_ltb descriptor_Q descriptor_P = false.
Proof. repeat split; reflexivity. Qed.

(** * Sorting the progressive sizes *)

Lemma Int32_leb_le (x y : Z) : Int32Order.leb x y = true <-> x <= y.
Proof. apply Int32Order.leb_le. Qed.

Lemma sort_Sorted (l : list Z) : StronglySorted Z.le (Int32Sort.sort l).
Proof.
  assert (H : StronglySorted (fun x y => is_true (Int32Order.leb x y))
                (Int32Sort.sort l)).
  { apply Int32Sort.StronglySorted_sort.
    intros x y z Hxy Hyz. apply Int32_leb_le.
    apply Int32_leb_le in Hxy. apply Int32_leb_le in Hyz. lia. }
  induction H as [ | a l' Hl' IH Hall]; constructor.
  - exact IH.
  - eapply Forall_impl; [ | exact Hall ].
    intros b Hb. now apply Int32_leb_le.
Qed.

Lemma sort_nonempty (l : list Z) : l <> [] -> Int32Sort.sort l <> [].
Proof.
  intros Hl Hs. apply Hl.
  apply Permutation_nil. rewrite <- Hs. apply Permutation_sym.
  apply Int32Sort.Permuted_sort.
Qed.

Lemma sort_back (l : list Z) :
  l <> [] ->
  Int32Sort.sort l = pop_back (Int32Sort.sort l) ++ [back (Int32Sort.sort l)].
Proof.
  intros Hl. unfold pop_back, back.
  apply app_removelast_last. now apply sort_nonempty.
Qed.

Lemma StronglySorted_last_max (l : list Z) (m : Z) :
  StronglySorted Z.le (l ++ [m]) -> Forall (fun x => x <= m) (l ++ [m]).
Proof.
  induction l as [ | a l IH]; cbn; intros H.
  - constructor; [ lia | constructor ].
  - inversion H as [ | ? ? Hs Hall]; subst.
    constructor.
    + rewrite Forall_forall in Hall. apply Hall.
      apply in_or_app. right. now left.
    + now apply IH.
Qed.

(** * Minithumbnail reconstruction *)

Lemma header_length : List.length header = 623%nat.
Proof. vm_compute. reflexivity. Qed.

Lemma footer_bytes : footer = [xff; xd9].
Proof. vm_compute. reflexivity. Qed.

Lemma header_head : substr header 0 (Some 164%nat) = Some (firstn 164 header).
Proof. unfold substr. rewrite header_length. reflexivity. Qed.

Lemma header_tail : substr header 167 None = Some (skipn 167 header).
Proof. unfold substr. rewrite header_length. reflexivity. Qed.

Lemma header_165 : char_at header 165 = Some (nth 165 header x00).
Proof. vm_compute. reflexivity. Qed.

Lemma byte_eqb_eq (a b : byte) : Byte.eqb a b = true <-> a = b.
Proof.
  split.
  - apply Byte.byte_dec_bl.
  - apply Byte.byte_dec_lb.
Qed.

(** C4: a packed input of at least three bytes that opens with the tag 1
    gives the header up to offset 164, the height byte, byte 165 of the
    header, the width byte, the header from offset 167 on, the payload and
    the footer, with the height read from byte 1 and the width from byte 2;
    a shorter input or another tag gives no object.  No access is out of
    range. *)
Theorem get_minithumbnail_object_splice (packed : bytes) :
  ((3 <= List.length packed)%nat -> nth 0 packed x00 = x01 ->
   get_minithumbnail_object packed =
   Some (Some {|
     width_ := uint8_of_char (nth 2 packed x00);
     height_ := uint8_of_char (nth 1 packed x00);
     data_ := firstn 164 header ++ [nth 1 packed x00] ++ [nth 165 header x00]
              ++ [nth 2 packed x00] ++ skipn 167 header ++ skipn 3 packed
              ++ footer |}))
  /\ ((List.length packed < 3)%nat \/ nth 0 packed x00 <> x01 ->
      get_minithumbnail_object packed = Some None).
Proof.
  unfold get_minithumbnail_object.
  destruct packed as [ | tag [ | h [ | w payload]]];
    try (cbn; split; [ intros; lia | reflexivity ]).
  change (char_at (tag :: h :: w :: payload) 0) with (Some tag).
  change (char_at (tag :: h :: w :: payload) 1) with (Some h).
  change (char_at (tag :: h :: w :: payload) 2) with (Some w).
  change (substr (tag :: h :: w :: payload) 3 None) with (Some payload).
  cbn [List.length Nat.ltb Nat.leb option_bind nth skipn].
  split.
  - intros _ ->. cbn [Byte.eqb].
    rewrite header_head. cbn [option_bind].
    rewrite header_165. cbn [option_bind].
    rewrite header_tail. reflexivity.
  - intros [Hlen | Htag]; [ lia | ].
    destruct (Byte.eqb tag x01) eqn:E; [ | reflexivity ].
    apply byte_eqb_eq in E. contradiction.
Qed.

Lemma get_minithumbnail_object_splice_witness :
  get_minithumbnail_object [x01; x0a; x14] =
  Some (Some {|
    width_ := 20;
    height_ := 10;
    data_ := firstn 164 header ++ [x0a] ++ [x00] ++ [x14]
             ++ skipn 167 header ++ [] ++ [xff; xd9] |}).
Proof.
  rewrite (proj1 (get_minithumbnail_object_splice [x01; x0a; x14]));
    [ | cbn; lia | reflexivity ].
  vm_compute. reflexivity.
Defined.

(** * The decoders *)

(** Names the result of the call to [register_remote] that the goal holds. *)
Ltac destruct_register_remote fid fm' :=
  match goal with
  | |- context [register_remote ?a ?b ?c ?d ?e ?f ?g] =>
      destruct (register_remote a b c d e f g) as [fid fm'] eqn:?
  end.

Section DecoderProperties.

Context `{env : Collaborators}.

Lemma logged_nil (st : World) : logged st [] st.
Proof. unfold logged. destruct st. cbn. now rewrite app_nil_r. Qed.

Lemma logged_trans (st st1 st2 : World) (l1 l2 : list LogEntry) :
  logged st l1 st1 -> logged st1 l2 st2 -> logged st (l1 ++ l2) st2.
Proof.
  unfold logged. intros -> ->. cbn. now rewrite app_assoc.
Qed.

Lemma existsb_none (P Q : LogEntry -> bool) (l : list LogEntry) :
  (forall e, P e = true -> Q e = false) ->
  Forall (fun e => P e = true) l -> existsb Q l = false.
Proof.
  intros HPQ. induction 1 as [ | e l He _ IH]; cbn; [ reflexivity | ].
  now rewrite (HPQ e He), IH.
Qed.

Lemma get_dimension_run (sz : Z) (source : string) (st : World) :
  exists lines st',
    get_dimension sz source st
    = Some ((if (0 <=? sz) && (sz <=? 65535) then sz else 0), st')
    /\ logged st lines st'
    /\ (0 <= sz <= 65535 -> lines = [])
    /\ Forall (fun e => is_wrong_image_dimension e = true) lines.
Proof.
  unfold get_dimension, bind, LOG, ret, narrow_cast_uint16.
  destruct (Z.ltb_spec sz 0) as [Hneg | Hpos]; cbn [orb].
  - replace (0 <=? sz) with false by (symmetry; apply Z.leb_gt; lia).
    cbn [andb]. eexists _, _.
    split; [ reflexivity | split; [ reflexivity | split; [ lia | auto ] ] ].
  - destruct (Z.ltb_spec 65535 sz) as [Hbig | Hsmall].
    + replace (sz <=? 65535) with false by (symmetry; apply Z.leb_gt; lia).
      rewrite andb_false_r. eexists _, _.
      split; [ reflexivity | split; [ reflexivity | split; [ lia | auto ] ] ].
    + exists [], st.
      replace (0 <=? sz) with true by (symmetry; apply Z.leb_le; lia).
      replace (sz <=? 65535) with true by (symmetry; apply Z.leb_le; lia).
      cbn [andb]. rewrite Z.mod_small by lia.
      repeat split; [ apply logged_nil | auto ].
Qed.

Lemma spec_validate_inv (w h : Z) :
  Dimensions_inv (spec_validate w h) /\ Dimensions_typed (spec_validate w h).
Proof.
  unfold spec_validate, Dimensions_inv, Dimensions_typed, is_uint16.
  destruct (Z.leb_spec 1 w), (Z.leb_spec w 65535), (Z.leb_spec 1 h),
    (Z.leb_spec h 65535); cbn; lia.
Qed.

Lemma get_dimensions_run (w h : Z) (source : string) (st : World) :
  exists lines st',
    get_dimensions w h source st = Some (spec_validate w h, st')
    /\ logged st lines st'
    /\ (0 <= w <= 65535 -> 0 <= h <= 65535 -> lines = [])
    /\ Forall (fun e => is_wrong_image_dimension e = true) lines.
Proof.
  unfold get_dimensions, bind.
  destruct (get_dimension_run w source st) as (l1 & st1 & -> & L1 & N1 & F1).
  destruct (get_dimension_run h source st1) as (l2 & st2 & -> & L2 & N2 & F2).
  exists (l1 ++ l2), st2.
  split; [ | split; [ eapply logged_trans; eassumption | split ] ].
  - unfold spec_validate, ret.
    destruct (Z.leb_spec 0 w), (Z.leb_spec w 65535), (Z.leb_spec 0 h),
      (Z.leb_spec h 65535), (Z.leb_spec 1 w), (Z.leb_spec 1 h);
      cbn [andb orb]; try lia;
      repeat match goal with
             | |- context [?a =? ?b] => destruct (Z.eqb_spec a b)
             end; cbn [andb orb]; try reflexivity; lia.
  - intros Hw Hh. now rewrite N1, N2.
  - apply Forall_app. now split.
Qed.

(** C3: the validator returns a value on every pair of inputs; the pair
    itself when both are in [1, 65535], then without a log line; (0, 0) when
    either is zero, negative or above 65535; and the value has both fields
    nonzero or both zero.  It makes no call to the file manager. *)
Theorem get_dimensions_validates (w h : Z) (source : string) (st : World) :
  exists d st',
    get_dimensions w h source st = Some (d, st')
    /\ (1 <= w <= 65535 /\ 1 <= h <= 65535 -> d = mkDimensions w h /\ st' = st)
    /\ (w <= 0 \/ 65535 < w \/ h <= 0 \/ 65535 < h -> d = mkDimensions 0 0)
    /\ Dimensions_inv d /\ Dimensions_typed d
    /\ fm st' = fm st /\ calls st' = calls st.
Proof.
  destruct (get_dimensions_run w h source st) as (lines & st' & E & L & N & _).
  exists (spec_validate w h), st'.
  split; [ exact E | split; [ | split; [ | split; [ | split; [ | split ] ] ] ] ].
  - intros [Hw Hh]. split.
    + unfold spec_validate.
      destruct (Z.leb_spec 1 w), (Z.leb_spec w 65535), (Z.leb_spec 1 h),
        (Z.leb_spec h 65535); cbn; try lia; reflexivity.
    + rewrite N in L by lia. unfold logged in L. rewrite L.
      destruct st. cbn. now rewrite app_nil_r.
  - intros Hbad. unfold spec_validate.
    destruct (Z.leb_spec 1 w), (Z.leb_spec w 65535), (Z.leb_spec 1 h),
      (Z.leb_spec h 65535); cbn; try lia; reflexivity.
  - apply spec_validate_inv.
  - apply spec_validate_inv.
  - unfold logged in L. now rewrite L.
  - unfold logged in L. now rewrite L.
Qed.

Lemma get_photo_size_tail_run (source : PhotoSizeSource) (id access_hash : Z)
    (file_reference : bytes) (dc_id owner : Z) (format : PhotoFormat)
    (type_text : string) (res : PhotoSize) (content : bytes) (st : World) :
  let t := if tag_accepted type_text
           then uint8_of_ascii (string_front type_text) else 0 in
  let source' := if PhotoSizeSource_is_Thumbnail source
                 then set_thumbnail_type source t else source in
  let loc := PhotoRemoteLocation source' id access_hash dc_id file_reference in
  let fls := if DialogType_is_SecretChat (DialogId_get_type owner)
             then FromUser else FromServer in
  let name := (get_unique_name source' id ++ "."
               ++ PhotoFormat_to_string format)%string in
  let reg := register_remote (fm st) loc fls owner (size res) 0 name in
  get_photo_size_tail source id access_hash file_reference dc_id owner format
    type_text res content st
  = Some (inl (set_file_id (set_type res t) (fst reg)),
          mkWorld
            (if (List.length content =? 0)%nat then snd reg
             else set_content (snd reg) (fst reg) content)
            (calls st
             ++ Call_register_remote loc fls owner (size res) 0 name
                :: (if (List.length content =? 0)%nat then []
                    else [Call_set_content (fst reg) content]))
            (log st
             ++ (if tag_accepted type_text then []
                 else [(ERROR,
                        Wrong_photoSize type_text
                          (if (String.length type_text =? 1)%nat
                           then set_type res
                                  (uint8_of_ascii (string_front type_text))
                           else res))])
             ++ [(DEBUG, Receive_photo format id dc_id)])).
Proof.
  unfold get_photo_size_tail, tag_accepted, register_photo_size,
    call_register_remote, call_set_content, when, bind, LOG, ret.
  destruct (String.length type_text =? 1)%nat eqn:Elen; cbn [negb andb].
  - cbn [type set_type].
    rewrite Z.leb_antisym.
    destruct (uint8_of_ascii (string_front type_text) <? 128) eqn:Ebyte;
      cbn [negb type set_type size fm calls log];
      destruct_register_remote fid fm';
      cbn [fst snd fm calls log];
      destruct (List.length content =? 0)%nat;
      cbn [negb fst snd fm calls log];
      rewrite <- ?app_assoc; cbn [app]; rewrite ?app_nil_r; reflexivity.
  - cbn [type set_type size fm calls log].
    destruct_register_remote fid fm';
    cbn [fst snd fm calls log];
    destruct (List.length content =? 0)%nat;
    cbn [negb fst snd fm calls log];
    rewrite <- ?app_assoc; cbn [app]; rewrite ?app_nil_r; reflexivity.
Qed.

Lemma get_photo_size_break (source : PhotoSizeSource) (id access_hash : Z)
    (file_reference : bytes) (dc_id owner : Z)
    (wire : telegram_api_PhotoSize) (format : PhotoFormat) (st : World) :
  fields_extracted wire ->
  exists lines st1,
    logged st lines st1
    /\ Forall (fun e => is_wrong_image_dimension e = true) lines
    /\ get_photo_size source id access_hash file_reference dc_id owner
         (Some wire) format st
       = get_photo_size_tail source id access_hash file_reference dc_id owner
           format (wire_type_ wire) (extracted_fields wire)
           (wire_content wire) st1.
Proof.
  destruct wire as [t | t w h s | t w h b | t b | t w h sizes | t b];
    cbn [fields_extracted]; intros Hx; try contradiction.
  - destruct (get_dimensions_run w h "photoSize" st)
      as (lines & st1 & E & L & _ & F).
    exists lines, st1. split; [ exact L | split; [ exact F | ] ].
    cbn [get_photo_size]. unfold bind at 1. rewrite E. reflexivity.
  - destruct (get_dimensions_run w h "photoCachedSize" st)
      as (lines & st1 & E & L & _ & F).
    exists lines, st1. split; [ exact L | split; [ exact F | ] ].
    cbn [get_photo_size]. unfold bind at 1, CHECK.
    replace (Z.of_nat (List.length b) <=? int32_max) with true
      by (symmetry; now apply Z.leb_le).
    unfold bind at 1. rewrite E. reflexivity.
  - destruct (get_dimensions_run w h "photoSizeProgressive" st)
      as (lines & st1 & E & L & _ & F).
    exists lines, st1. split; [ exact L | split; [ exact F | ] ].
    cbn [get_photo_size].
    destruct sizes as [ | x sizes]; [ contradiction | ].
    cbn [List.length Nat.eqb]. unfold bind at 1. rewrite E. reflexivity.
Qed.

(** C8: for a plain, cached or progressive record whose fields are
    extracted, the decode completes with a descriptor; its tag is the byte of
    the wire tag when that tag is one byte of value less than 128, and 0
    otherwise; the error [Wrong_photoSize] is logged exactly in the second
    case; and the file is registered, the handle of the descriptor being the
    one that the file manager returns. *)
Theorem get_photo_size_type_tag (source : PhotoSizeSource)
    (id access_hash : Z) (file_reference : bytes) (dc_id owner : Z)
    (wire : telegram_api_PhotoSize) (format : PhotoFormat) (st : World) :
  fields_extracted wire ->
  exists res st' lines location fls name,
    get_photo_size source id access_hash file_reference dc_id owner
      (Some wire) format st = Some (inl res, st')
    /\ type res = (if tag_accepted (wire_type_ wire)
                   then uint8_of_ascii (string_front (wire_type_ wire))
                   else 0)
    /\ log st' = log st ++ lines
    /\ existsb is_wrong_photoSize lines
       = negb (tag_accepted (wire_type_ wire))
    /\ calls st'
       = calls st
         ++ Call_register_remote location fls owner (size res) 0 name
            :: (if (List.length (wire_content wire) =? 0)%nat then []
                else [Call_set_content (file_id res) (wire_content wire)])
    /\ file_id res
       = fst (register_remote (fm st) location fls owner (size res) 0 name).
Proof.
  intros Hx.
  destruct (get_photo_size_break source id access_hash file_reference dc_id
              owner wire format st Hx) as (l1 & st1 & L & F & ->).
  rewrite get_photo_size_tail_run. cbv zeta.
  unfold logged in L. subst st1. cbn [fm calls log].
  do 6 eexists.
  split; [ reflexivity | ].
  cbn [type size file_id set_file_id set_type].
  split; [ reflexivity | ].
  split; [ rewrite <- app_assoc; reflexivity | ].
  split; [ | split; reflexivity ].
  rewrite !existsb_app.
  rewrite (existsb_none is_wrong_image_dimension is_wrong_photoSize l1);
    [ | intros [[ | ] [ ]]; cbn; congruence | exact F ].
  destruct (tag_accepted (wire_type_ wire)); reflexivity.
Qed.

(** C2: a progressive record with no scan size gives the empty descriptor,
    with one log line and no call to the file manager; otherwise the decode
    returns a descriptor whose size is the largest scan size and whose
    progressive sizes are the others in ascending order: the sorted input is
    the progressive sizes followed by the size.  The sizes 100, 50, 300 give
    the size 300 and the progressive sizes 50, 100. *)
Theorem get_photo_size_progressive (source : PhotoSizeSource)
    (id access_hash : Z) (file_reference : bytes) (dc_id owner : Z)
    (type_ : string) (w_ h_ : Z) (sizes_ : list Z) (format : PhotoFormat)
    (st : World) :
  (sizes_ = [] ->
   get_photo_size source id access_hash file_reference dc_id owner
     (Some (photoSizeProgressive type_ w_ h_ sizes_)) format st
   = Some (inl PhotoSize_default,
           mkWorld (fm st) (calls st)
             (log st ++ [(ERROR, Photo_with_empty_size id source)])))
  /\ (sizes_ <> [] ->
      exists res st',
        get_photo_size source id access_hash file_reference dc_id owner
          (Some (photoSizeProgressive type_ w_ h_ sizes_)) format st
        = Some (inl res, st')
        /\ Int32Sort.sort sizes_ = progressive_sizes res ++ [size res]
        /\ StronglySorted Z.le (progressive_sizes res ++ [size res])
        /\ Permutation sizes_ (progressive_sizes res ++ [size res])
        /\ Forall (fun x => x <= size res) sizes_
        /\ (sizes_ = [100; 50; 300] ->
            size res = 300 /\ progressive_sizes res = [50; 100])).
Proof.
  split.
  - intros ->. reflexivity.
  - intros Hne.
    destruct (get_photo_size_break source id access_hash file_reference dc_id
                owner (photoSizeProgressive type_ w_ h_ sizes_) format st Hne)
      as (l1 & st1 & L & F & ->).
    rewrite get_photo_size_tail_run. cbv zeta.
    do 2 eexists. split; [ reflexivity | ].
    cbn [extracted_fields size progressive_sizes set_file_id set_type].
    pose proof (sort_back sizes_ Hne) as Hsort.
    pose proof (sort_Sorted sizes_) as Hsorted.
    set (m := back (Int32Sort.sort sizes_)) in *.
    set (p := pop_back (Int32Sort.sort sizes_)) in *.
    rewrite Hsort in Hsorted.
    split; [ exact Hsort | split; [ exact Hsorted | split; [ | split ] ] ].
    + rewrite <- Hsort. apply Int32Sort.Permuted_sort.
    + eapply Permutation_Forall.
      * apply Permutation_sym, Int32Sort.Permuted_sort.
      * rewrite Hsort. now apply StronglySorted_last_max.
    + intros ->. split; reflexivity.
Qed.

(** C7: a stripped record under a format other than JPEG gives the empty
    descriptor, with one log line, the file manager and the calls made to it
    unchanged; under JPEG it gives the inline bytes as they are, and the
    state is unchanged. *)
Theorem get_photo_size_stripped (source : PhotoSizeSource)
    (id access_hash : Z) (file_reference : bytes) (dc_id owner : Z)
    (type_ : string) (bytes_ : bytes) (format : PhotoFormat) (st : World) :
  (format <> Jpeg ->
   get_photo_size source id access_hash file_reference dc_id owner
     (Some (photoStrippedSize type_ bytes_)) format st
   = Some (inl PhotoSize_default,
           mkWorld (fm st) (calls st)
             (log st
              ++ [(ERROR, Unexpected_JPEG_minithumbnail id source format)])))
  /\ (format = Jpeg ->
      get_photo_size source id access_hash file_reference dc_id owner
        (Some (photoStrippedSize type_ bytes_)) format st
      = Some (inr bytes_, st)).
Proof.
  split.
  - intros Hf. destruct format; try reflexivity. contradiction.
  - intros ->. reflexivity.
Qed.

Lemma register_photo_size_run (source : PhotoSizeSource) (id access_hash : Z)
    (file_reference : bytes) (owner file_size dc_id : Z)
    (format : PhotoFormat) (st : World) :
  let loc := PhotoRemoteLocation source id access_hash dc_id file_reference in
  let fls := if DialogType_is_SecretChat (DialogId_get_type owner)
             then FromUser else FromServer in
  let name := (get_unique_name source id ++ "."
               ++ PhotoFormat_to_string format)%string in
  let reg := register_remote (fm st) loc fls owner file_size 0 name in
  register_photo_size source id access_hash file_reference owner file_size
    dc_id format st
  = Some (fst reg,
          mkWorld (snd reg)
            (calls st ++ [Call_register_remote loc fls owner file_size 0 name])
            (log st ++ [(DEBUG, Receive_photo format id dc_id)])).
Proof.
  unfold register_photo_size, call_register_remote, bind, LOG.
  cbn [fm calls log].
  destruct_register_remote fid fm'.
  reflexivity.
Qed.

(** The tag that [get_animation_size] stores for a wire tag: its first byte,
    the zero of the empty text included, unless that byte is 128 or more. *)
Lemma get_animation_size_run (source : PhotoSizeSource) (id access_hash : Z)
    (file_reference : bytes) (dc_id owner : Z) (sz : videoSize) (st : World) :
  let c := uint8_of_ascii (string_front (video_type_ sz)) in
  let t := if c <? 128 then c else 0 in
  let unknown := negb (String.eqb (video_type_ sz) "v")
                 && negb (String.eqb (video_type_ sz) "u") in
  exists lines_d fid fm' location fls name,
    Forall (fun e => is_wrong_image_dimension e = true) lines_d
    /\ (fid, fm') = register_remote (fm st) location fls owner
                      (video_size_ sz) 0 name
    /\ get_animation_size source id access_hash file_reference dc_id owner
         (Some sz) st
       = Some (mkAnimationSize
                 (mkPhotoSize t (spec_validate (video_w_ sz) (video_h_ sz))
                    (video_size_ sz) fid [])
                 (if negb (Z.land (video_flags_ sz) VIDEO_START_TS_MASK =? 0)
                  then video_start_ts_ sz else 0%float),
               mkWorld fm'
                 (calls st ++ [Call_register_remote location fls owner
                                 (video_size_ sz) 0 name])
                 (log st
                  ++ (if unknown
                      then [(ERROR, Wrong_videoSize_tag (video_type_ sz))]
                      else [])
                  ++ (if c <? 128 then []
                      else [(ERROR, Wrong_videoSize_byte c)])
                  ++ lines_d ++ [(DEBUG, Receive_photo Mpeg4 id dc_id)])).
Proof.
  cbv zeta. unfold get_animation_size.
  set (unknown := negb (String.eqb (video_type_ sz) "v")
                  && negb (String.eqb (video_type_ sz) "u")).
  set (c := uint8_of_ascii (string_front (video_type_ sz))).
  unfold bind at 1.
  assert (E1 : when unknown
                 (LOG ERROR (Wrong_videoSize_tag (video_type_ sz))) st
               = Some (tt, mkWorld (fm st) (calls st)
                             (log st
                              ++ (if unknown
                                  then [(ERROR,
                                         Wrong_videoSize_tag (video_type_ sz))]
                                  else [])))).
  { destruct unknown; cbn; [ reflexivity | ].
    destruct st; cbn. now rewrite app_nil_r. }
  rewrite E1. clear E1.
  set (st1 := mkWorld _ _ _).
  unfold bind at 1. cbn [type set_type PhotoSize_default].
  rewrite Z.leb_antisym.
  set (st2 := mkWorld (fm st1) (calls st1)
                (log st1 ++ (if c <? 128 then []
                             else [(ERROR, Wrong_videoSize_byte c)]))).
  set (t := if c <? 128 then c else 0).
  assert (E2 : (if negb (c <? 128)
                then bind (LOG ERROR (Wrong_videoSize_byte c))
                       (fun _ => ret (set_type
                          (set_type PhotoSize_default c) 0))
                else ret (set_type PhotoSize_default c)) st1
               = Some (set_type PhotoSize_default t, st2)).
  { unfold st2, t. destruct (c <? 128); cbn; [ | reflexivity ].
    unfold st1. cbn. now rewrite app_nil_r. }
  unfold set_type at 1 2 in E2. unfold set_type at 1 2.
  cbn [type dimensions size file_id progressive_sizes PhotoSize_default] in E2 |- *.
  rewrite E2. clear E2.
  destruct (get_dimensions_run (video_w_ sz) (video_h_ sz)
              "get_animation_size" st2) as (lines_d & st3 & E3 & L3 & _ & F3).
  unfold bind at 1. rewrite E3.
  unfold bind at 1. rewrite register_photo_size_run. cbv zeta.
  unfold logged in L3. subst st3. unfold st2, st1.
  cbn [fm calls log size set_size set_dimensions set_type type dimensions
       file_id progressive_sizes set_file_id fst snd].
  destruct_register_remote fid fm'.
  exists lines_d, fid, fm'. do 3 eexists.
  split; [ exact F3 | split; [ symmetry; eassumption | ] ].
  cbn [fst snd ret]. rewrite <- !app_assoc. reflexivity.
Qed.

(** C5, as the code has it: a video size decodes whatever its tag; a tag
    other than "v" and "u" is logged as a wrong tag and kept: the
    descriptor carries the first byte of the wire tag (0 for the empty tag),
    and 0 only when that byte is 128 or more; the tags "v" and "u" are not
    logged; the file is registered. *)
Theorem get_animation_size_type_tag (source : PhotoSizeSource)
    (id access_hash : Z) (file_reference : bytes) (dc_id owner : Z)
    (sz : videoSize) (st : World) :
  exists res st' lines,
    get_animation_size source id access_hash file_reference dc_id owner
      (Some sz) st = Some (res, st')
    /\ type (as_photo_size res)
       = (if uint8_of_ascii (string_front (video_type_ sz)) <? 128
          then uint8_of_ascii (string_front (video_type_ sz)) else 0)
    /\ log st' = log st ++ lines
    /\ (video_type_ sz <> "v"%string -> video_type_ sz <> "u"%string ->
        In (ERROR, Wrong_videoSize_tag (video_type_ sz)) lines)
    /\ (video_type_ sz = "v"%string \/ video_type_ sz = "u"%string ->
        existsb is_wrong_videoSize_tag lines = false)
    /\ existsb is_wrong_videoSize_byte lines
       = (128 <=? uint8_of_ascii (string_front (video_type_ sz)))
    /\ exists location fls name,
         calls st'
         = calls st ++ [Call_register_remote location fls owner
                          (size (as_photo_size res)) 0 name].
Proof.
  destruct (get_animation_size_run source id access_hash file_reference dc_id
              owner sz st)
    as (lines_d & fid & fm' & location & fls & name & F & _ & E).
  cbv zeta in E. rewrite E. do 3 eexists.
  split; [ reflexivity | ].
  cbn [as_photo_size type size log calls].
  assert (Hd : forall Q, (forall e, is_wrong_image_dimension e = true ->
                                    Q e = false) ->
                         existsb Q lines_d = false)
    by (intros Q HQ; now apply (existsb_none is_wrong_image_dimension)).
  split; [ reflexivity | split; [ reflexivity | ] ].
  split; [ | split; [ | split ] ].
  - intros Hv Hu. apply in_or_app. left.
    destruct (String.eqb_spec (video_type_ sz) "v"); [ contradiction | ].
    destruct (String.eqb_spec (video_type_ sz) "u"); [ contradiction | ].
    now left.
  - intros Hvu.
    assert (Hcode : negb (String.eqb (video_type_ sz) "v")
                    && negb (String.eqb (video_type_ sz) "u") = false)
      by (destruct Hvu as [-> | ->]; reflexivity).
    rewrite Hcode, !existsb_app, Hd
      by (intros [[ | ] [ ]]; cbn; congruence).
    destruct (_ <? 128); reflexivity.
  - rewrite !existsb_app, Hd by (intros [[ | ] [ ]]; cbn; congruence).
    rewrite Z.leb_antisym.
    destruct (negb _ && negb _), (_ <? 128); reflexivity.
  - do 3 eexists. reflexivity.
Qed.

(** C10: an absent web document gives the default descriptor, whose file
    handle is invalid and whose dimensions and size are zero; the file
    manager, the calls made to it and the log are unchanged. *)
Theorem get_web_document_photo_size_null (file_type : FileType) (owner : Z)
    (st : World) :
  get_web_document_photo_size file_type owner None st
  = Some (PhotoSize_default, st)
  /\ FileId_is_valid (file_id PhotoSize_default) = false
  /\ dimensions PhotoSize_default = mkDimensions 0 0
  /\ size PhotoSize_default = 0.
Proof. repeat split. Qed.

End DecoderProperties.

(** C5, as the specification states it, fails: the tag "x" is logged and the
    descriptor keeps it, 120, where the specification has 0. *)
Lemma get_animation_size_keeps_unknown_tag :
  exists res st',
    get_animation_size (env := counting_env) (Source_other 0) 1 2 [] 3 4
      (Some video_size_x) world0 = Some (res, st')
    /\ In (ERROR, Wrong_videoSize_tag "x") (log st')
    /\ type (as_photo_size res) = 120
    /\ type (as_photo_size res) <> 0.
Proof.
  do 2 eexists. split; [ vm_compute; reflexivity | ].
  cbn. split; [ now left | split; [ reflexivity | discriminate ] ].
Qed.

(** * Equality of animation sizes *)


(** * Concrete runs *)

Lemma get_dimensions_validates_witness :
  exists d st',
    get_dimensions (env := counting_env) 640 480 "photoSize" world0
    = Some (d, st')
    /\ d = mkDimensions 640 480 /\ st' = world0.
Proof.
  destruct (@get_dimensions_validates counting_env 640 480 "photoSize" world0)
    as (d & st' & E & Hin & _).
  exists d, st'. split; [ exact E | ].
  apply Hin. lia.
Defined.

Lemma get_photo_size_progressive_witness :
  exists res st',
    get_photo_size (env := counting_env) (Source_other 0) 1 2 [] 3 4
      (Some (photoSizeProgressive "y" 800 600 [100; 50; 300])) Jpeg world0
    = Some (inl res, st')
    /\ size res = 300 /\ progressive_sizes res = [50; 100].
Proof.
  assert (Hne : [100; 50; 300] <> @nil Z) by discriminate.
  destruct (proj2 (@get_photo_size_progressive counting_env (Source_other 0)
                     1 2 [] 3 4 "y" 800 600 [100; 50; 300] Jpeg world0) Hne)
    as (res & st' & E & _ & _ & _ & _ & Hex).
  exists res, st'. split; [ exact E | ].
  apply Hex. reflexivity.
Defined.

Lemma get_photo_size_stripped_witness :
  get_photo_size (env := counting_env) (Source_other 0) 1 2 [] 3 4
    (Some (photoStrippedSize "i" [x01; x0a; x14])) Png world0
  = Some (inl PhotoSize_default,
          @mkWorld counting_env 0 []
            [(ERROR, Unexpected_JPEG_minithumbnail 1 (Source_other 0) Png)]).
Proof.
  apply (proj1 (@get_photo_size_stripped counting_env (Source_other 0)
                  1 2 [] 3 4 "i" [x01; x0a; x14] Png world0)).
  discriminate.
Defined.

Lemma get_photo_size_type_tag_witness :
  exists res st',
    get_photo_size (env := counting_env)
      (Source_Thumbnail FileType_Thumbnail 0) 1 2 [] 3 4
      (Some cached_untagged) Jpeg world0 = Some (inl res, st')
    /\ type res = 0
    /\ existsb is_wrong_photoSize (log st') = true
    /\ file_id res = mkFileId 1.
Proof.
  assert (Hx : fields_extracted cached_untagged)
    by (cbn; unfold int32_max; lia).
  destruct (@get_photo_size_type_tag counting_env
              (Source_Thumbnail FileType_Thumbnail 0) 1 2 [] 3 4
              cached_untagged Jpeg world0 Hx)
    as (res & st' & lines & location & fls & name & E & Ht & Hl & Hin & _ & Hf).
  exists res, st'. split; [ exact E | split; [ exact Ht | split ] ].
  - rewrite Hl, existsb_app, Hin. reflexivity.
  - rewrite Hf. reflexivity.
Defined.

Lemma get_animation_size_type_tag_witness :
  exists res st',
    get_animation_size (env := counting_env) (Source_other 0) 1 2 [] 3 4
      (Some video_size_x) world0 = Some (res, st')
    /\ type (as_photo_size res) = 120
    /\ In (ERROR, Wrong_videoSize_tag "x") (log st').
Proof.
  destruct (@get_animation_size_type_tag counting_env (Source_other 0)
              1 2 [] 3 4 video_size_x world0)
    as (res & st' & lines & E & Ht & Hl & Hin & _).
  exists res, st'. split; [ exact E | split; [ exact Ht | ] ].
  rewrite Hl. apply in_or_app. right. apply Hin; discriminate.
Defined.

(** * Further properties of the operators *)

Lemma prod_eq_dec_keys (a b : Z * Z * Z * Z * Z) : {a = b} + {a <> b}.
Proof. repeat decide equality. Qed.

Lemma incomparable_same_key (a b : PhotoSize) :
  PhotoSize_ltb a b = false /\ PhotoSize_ltb b a = false
  <-> sort_key a = sort_key b.
Proof.
  split.
  - intros [Hab Hba].
    destruct (prod_eq_dec_keys (sort_key a) (sort_key b)) as [E | N];
      [ exact E | ].
    destruct (lex5_total _ _ N) as [H | H]; apply PhotoSize_ltb_lex in H;
      congruence.
  - intros E. split.
    + destruct (PhotoSize_ltb a b) eqn:H; [ | reflexivity ].
      apply PhotoSize_ltb_lex in H. rewrite E in H.
      destruct (lex5_irrefl _ H).
    + destruct (PhotoSize_ltb b a) eqn:H; [ | reflexivity ].
      apply PhotoSize_ltb_lex in H. rewrite E in H.
      destruct (lex5_irrefl _ H).
Qed.

(** X1: [operator<] is a strict weak ordering on all descriptors, typed or
    not: it is irreflexive and transitive, and being unordered either way is
    an equivalence (here its transitivity), which is what [std::sort] and
    [std::max_element] ask of a comparator. *)
Theorem PhotoSize_ltb_strict_weak_order :
  (forall a, PhotoSize_ltb a a = false)
  /\ (forall a b c, PhotoSize_ltb a b = true -> PhotoSize_ltb b c = true ->
                    PhotoSize_ltb a c = true)
  /\ (forall a b c,
        PhotoSize_ltb a b = false -> PhotoSize_ltb b a = false ->
        PhotoSize_ltb b c = false -> PhotoSize_ltb c b = false ->
        PhotoSize_ltb a c = false /\ PhotoSize_ltb c a = false).
Proof.
  split; [ | split ].
  - intros a. now apply (incomparable_same_key a a).
  - intros a b c Hab Hbc. apply PhotoSize_ltb_lex in Hab, Hbc.
    apply PhotoSize_ltb_lex. eapply lex5_trans; eassumption.
  - intros a b c Hab Hba Hbc Hcb.
    apply incomparable_same_key.
    transitivity (sort_key b); apply incomparable_same_key; now split.
Qed.

Lemma PhotoSize_ltb_strict_weak_order_witness :
  PhotoSize_ltb descriptor_P descriptor_P = false
  /\ PhotoSize_ltb descriptor_P descriptor_P = false.
Proof.
  apply (proj2 (proj2 PhotoSize_ltb_strict_weak_order)
           descriptor_P descriptor_Q descriptor_P); reflexivity.
Defined.

(** X2: [operator==] on descriptors is an equivalence relation, equal
    descriptors are not ordered by [operator<] and take the same place in
    every comparison, and [operator!=] holds exactly when some field
    differs. *)
Theorem PhotoSize_eqb_equivalence :
  (forall a, PhotoSize_eqb a a = true)
  /\ (forall a b, PhotoSize_eqb a b = PhotoSize_eqb b a)
  /\ (forall a b c, PhotoSize_eqb a b = true -> PhotoSize_eqb b c = true ->
                    PhotoSize_eqb a c = true)
  /\ (forall a b c, PhotoSize_eqb a b = true ->
                    PhotoSize_ltb a b = false
                    /\ PhotoSize_ltb a c = PhotoSize_ltb b c
                    /\ PhotoSize_ltb c a = PhotoSize_ltb c b)
  /\ (forall a b,
        PhotoSize_neqb a b = true <->
        type a <> type b \/ dimensions a <> dimensions b
        \/ size a <> size b \/ file_id a <> file_id b
        \/ progressive_sizes a <> progressive_sizes b).
Proof.
  assert (Hrefl : forall a, PhotoSize_eqb a a = true)
    by (intros a; now apply PhotoSize_eqb_eq).
  split; [ exact Hrefl | split; [ | split; [ | split ] ] ].
  - intros a b.
    destruct (PhotoSize_eqb a b) eqn:Hab, (PhotoSize_eqb b a) eqn:Hba;
      try reflexivity.
    + apply PhotoSize_eqb_eq in Hab. subst. now rewrite Hrefl in Hba.
    + apply PhotoSize_eqb_eq in Hba. subst. now rewrite Hrefl in Hab.
  - intros a b c Hab Hbc. apply PhotoSize_eqb_eq in Hab, Hbc. subst.
    apply Hrefl.
  - intros a b c Hab. apply PhotoSize_eqb_eq in Hab. subst b.
    split; [ | split; reflexivity ].
    now apply (incomparable_same_key a a).
  - intros a b. unfold PhotoSize_neqb. rewrite negb_true_iff.
    split.
    + intros Hne.
      destruct a as [ta da sa fa pa], b as [tb db sb fb pb]; cbn.
      destruct (Z.eq_dec ta tb); [ | now left ].
      destruct (Z.eq_dec sa sb); [ | now right; right; left ].
      destruct (list_eq_dec Z.eq_dec pa pb); [ | now do 4 right ].
      destruct da as [wa ha], db as [wb hb].
      destruct (Z.eq_dec wa wb);
        [ | right; left; intros H; injection H; intros; contradiction ].
      destruct (Z.eq_dec ha hb);
        [ | right; left; intros H; injection H; intros; contradiction ].
      destruct fa as [ga], fb as [gb].
      destruct (Z.eq_dec ga gb);
        [ | right; right; right; left; intros H; injection H; intros;
            contradiction ].
      subst. now rewrite Hrefl in Hne.
    + intros Hd. destruct (PhotoSize_eqb a b) eqn:E; [ | reflexivity ].
      apply PhotoSize_eqb_eq in E. subst.
      destruct Hd as [H | [H | [H | [H | H]]]]; now destruct H.
Qed.

Lemma PhotoSize_eqb_equivalence_witness :
  PhotoSize_eqb descriptor_A descriptor_A = true.
Proof.
  apply (proj1 (proj2 (proj2 PhotoSize_eqb_equivalence))
           descriptor_A descriptor_A descriptor_A); reflexivity.
Defined.

(** * Further properties of the minithumbnail *)

Lemma get_minithumbnail_object_inv (packed : bytes) (m : minithumbnail) :
  get_minithumbnail_object packed = Some (Some m) ->
  exists h w payload,
    packed = x01 :: h :: w :: payload
    /\ m = {| width_ := uint8_of_char w;
              height_ := uint8_of_char h;
              data_ := firstn 164 header ++ [h] ++ [nth 165 header x00]
                       ++ [w] ++ skipn 167 header ++ payload ++ footer |}.
Proof.
  unfold get_minithumbnail_object.
  destruct packed as [ | tag [ | h [ | w payload]]];
    try (cbn; discriminate).
  change (char_at (tag :: h :: w :: payload) 0) with (Some tag).
  change (char_at (tag :: h :: w :: payload) 1) with (Some h).
  change (char_at (tag :: h :: w :: payload) 2) with (Some w).
  change (substr (tag :: h :: w :: payload) 3 None) with (Some payload).
  cbn [List.length Nat.ltb Nat.leb option_bind].
  destruct (Byte.eqb tag x01) eqn:E; [ | discriminate ].
  apply byte_eqb_eq in E. subst tag.
  rewrite header_head. cbn [option_bind].
  rewrite header_165. cbn [option_bind].
  rewrite header_tail. cbn [option_bind].
  intros H. injection H as <-. exists h, w, payload. split; reflexivity.
Qed.

Lemma uint8_of_char_range (c : byte) : 0 <= uint8_of_char c <= 255.
Proof.
  unfold uint8_of_char. pose proof (Byte.to_N_bounded c). lia.
Qed.

(** X3: whenever a minithumbnail is returned, its data is 622 bytes longer
    than the packed input, and the reported width and height are between 0
    and 255. *)
Theorem get_minithumbnail_object_size (packed : bytes) (m : minithumbnail) :
  get_minithumbnail_object packed = Some (Some m) ->
  List.length (data_ m) = (List.length packed + 622)%nat
  /\ 0 <= width_ m <= 255 /\ 0 <= height_ m <= 255.
Proof.
  intros H. apply get_minithumbnail_object_inv in H.
  destruct H as (h & w & payload & -> & ->). cbn [data_ width_ height_].
  split; [ | split; apply uint8_of_char_range ].
  rewrite !length_app, length_firstn, length_skipn, header_length,
    footer_bytes.
  cbn [List.length]. lia.
Qed.

Lemma get_minithumbnail_object_size_witness :
  exists m,
    get_minithumbnail_object [x01; x0a; x14] = Some (Some m)
    /\ List.length (data_ m) = 625%nat.
Proof.
  eexists. split; [ vm_compute; reflexivity | ].
  refine (proj1 (get_minithumbnail_object_size [x01; x0a; x14] _ _)).
  vm_compute. reflexivity.
Defined.

(** X4: the data of a returned minithumbnail is framed as a JPEG file whose
    frame header carries the reported size: it opens with the marker FF D8,
    has the marker FF C0 at offset 158, the height as a 16-bit big-endian
    number at offsets 163 and 164 and the width at offsets 165 and 166, and
    it closes with the marker FF D9. *)
Theorem get_minithumbnail_object_jpeg (packed : bytes) (m : minithumbnail) :
  get_minithumbnail_object packed = Some (Some m) ->
  nth 0 (data_ m) x00 = xff /\ nth 1 (data_ m) x00 = xd8
  /\ nth 158 (data_ m) x00 = xff /\ nth 159 (data_ m) x00 = xc0
  /\ 256 * uint8_of_char (nth 163 (data_ m) x00)
     + uint8_of_char (nth 164 (data_ m) x00) = height_ m
  /\ 256 * uint8_of_char (nth 165 (data_ m) x00)
     + uint8_of_char (nth 166 (data_ m) x00) = width_ m
  /\ exists body, data_ m = body ++ [xff; xd9].
Proof.
  intros H. apply get_minithumbnail_object_inv in H.
  destruct H as (h & w & payload & -> & ->). cbn [data_ width_ height_].
  repeat (split; [ vm_compute; reflexivity | ]).
  exists (firstn 164 header ++ [h] ++ [nth 165 header x00] ++ [w]
          ++ skipn 167 header ++ payload).
  rewrite footer_bytes, <- !app_assoc. reflexivity.
Qed.

Lemma get_minithumbnail_object_jpeg_witness :
  exists m,
    get_minithumbnail_object [x01; x0a; x14] = Some (Some m)
    /\ 256 * uint8_of_char (nth 163 (data_ m) x00)
       + uint8_of_char (nth 164 (data_ m) x00) = 10.
Proof.
  eexists. split; [ vm_compute; reflexivity | ].
  refine (proj1 (proj2 (proj2 (proj2 (proj2
            (get_minithumbnail_object_jpeg [x01; x0a; x14] _ _)))))).
  vm_compute. reflexivity.
Defined.

(** X5: the packed input can be read back from the data: two inputs for
    which minithumbnails with the same data are returned are the same
    input. *)
Theorem get_minithumbnail_object_injective (p1 p2 : bytes)
    (m1 m2 : minithumbnail) :
  get_minithumbnail_object p1 = Some (Some m1) ->
  get_minithumbnail_object p2 = Some (Some m2) ->
  data_ m1 = data_ m2 -> p1 = p2.
Proof.
  intros H1 H2 Hd.
  apply get_minithumbnail_object_inv in H1, H2.
  destruct H1 as (h1 & w1 & l1 & -> & ->), H2 as (h2 & w2 & l2 & -> & ->).
  cbn [data_] in Hd.
  apply app_inv_head in Hd. cbn [app] in Hd.
  injection Hd as -> -> Hd.
  apply app_inv_tail in Hd. now subst.
Qed.

Lemma get_minithumbnail_object_injective_witness :
  [x01; x0a; x14] = [x01; x0a; x14].
Proof.
  eapply (get_minithumbnail_object_injective [x01; x0a; x14] [x01; x0a; x14]);
    [ vm_compute; reflexivity | vm_compute; reflexivity | reflexivity ].
Defined.

(** * Further properties of the decoders *)

Section MoreDecoderProperties.

Context `{objs : ObjectCollaborators}.

Lemma get_dimension_lines (sz : Z) (source : string) (st : World) :
  get_dimension sz source st
  = Some ((if in_uint16 sz then sz else 0),
          mkWorld (fm st) (calls st)
            (log st ++ (if in_uint16 sz then []
                        else [(ERROR, Wrong_image_dimension sz source)]))).
Proof.
  unfold get_dimension, in_uint16, bind, LOG, ret, narrow_cast_uint16.
  destruct (Z.ltb_spec sz 0), (Z.ltb_spec 65535 sz), (Z.leb_spec 0 sz),
    (Z.leb_spec sz 65535); cbn [andb orb]; try lia; try reflexivity.
  rewrite Z.mod_small by lia. destruct st; cbn. now rewrite app_nil_r.
Qed.

(** X6: the validator logs one error for each input that is negative or
    above 65535, in the order width, height, with the value and the source;
    a zero input is not logged, yet it zeroes the pair. *)
Theorem get_dimensions_log (w h : Z) (source : string) (st : World) :
  exists d,
    get_dimensions w h source st
    = Some (d, mkWorld (fm st) (calls st)
                 (log st
                  ++ (if in_uint16 w then []
                      else [(ERROR, Wrong_image_dimension w source)])
                  ++ (if in_uint16 h then []
                      else [(ERROR, Wrong_image_dimension h source)])))
    /\ (w = 0 \/ h = 0 -> d = mkDimensions 0 0).
Proof.
  unfold get_dimensions, bind. rewrite !get_dimension_lines.
  cbn [fm calls log]. rewrite <- app_assoc.
  set (rw := if in_uint16 w then w else 0).
  set (rh := if in_uint16 h then h else 0).
  exists (if (rw =? 0) || (rh =? 0) then mkDimensions 0 0
          else mkDimensions rw rh).
  split; [ destruct ((rw =? 0) || (rh =? 0)); reflexivity | ].
  intros [-> | ->]; subst rw rh; cbn [in_uint16 Z.leb Z.compare andb Z.eqb orb];
    [ reflexivity | now rewrite orb_true_r ].
Qed.

(** ** [get_photo_size] *)

Lemma get_photo_size_extracted (source : PhotoSizeSource) (id access_hash : Z)
    (file_reference : bytes) (dc_id owner : Z)
    (wire : telegram_api_PhotoSize) (format : PhotoFormat) (st : World) :
  fields_extracted wire ->
  let t := if tag_accepted (wire_type_ wire)
           then uint8_of_ascii (string_front (wire_type_ wire)) else 0 in
  let source' := if PhotoSizeSource_is_Thumbnail source
                 then set_thumbnail_type source t else source in
  let loc := PhotoRemoteLocation source' id access_hash dc_id file_reference in
  let fls := if DialogType_is_SecretChat (DialogId_get_type owner)
             then FromUser else FromServer in
  let name := (get_unique_name source' id ++ "."
               ++ PhotoFormat_to_string format)%string in
  let sz := size (extracted_fields wire) in
  let reg := register_remote (fm st) loc fls owner sz 0 name in
  let content := wire_content wire in
  exists lines,
    get_photo_size source id access_hash file_reference dc_id owner
      (Some wire) format st
    = Some (inl (set_file_id (set_type (extracted_fields wire) t) (fst reg)),
            mkWorld
              (if (List.length content =? 0)%nat then snd reg
               else set_content (snd reg) (fst reg) content)
              (calls st
               ++ Call_register_remote loc fls owner sz 0 name
                  :: (if (List.length content =? 0)%nat then []
                      else [Call_set_content (fst reg) content]))
              (log st ++ lines)).
Proof.
  intros Hx. cbv zeta.
  destruct (get_photo_size_break source id access_hash file_reference dc_id
              owner wire format st Hx) as (l1 & st1 & L & _ & ->).
  rewrite get_photo_size_tail_run. cbv zeta.
  unfold logged in L. subst st1. cbn [fm calls log].
  eexists. rewrite <- app_assoc. reflexivity.
Qed.

Lemma tag_in_range (t : string) :
  0 <= (if tag_accepted t then uint8_of_ascii (string_front t) else 0) < 128.
Proof.
  unfold tag_accepted.
  destruct (String.length t =? 1)%nat; cbn [andb]; [ | lia ].
  destruct (Z.ltb_spec (uint8_of_ascii (string_front t)) 128); [ | lia ].
  unfold uint8_of_ascii in *. lia.
Qed.

Lemma extracted_fields_dimensions (wire : telegram_api_PhotoSize) :
  Dimensions_inv (dimensions (extracted_fields wire))
  /\ Dimensions_typed (dimensions (extracted_fields wire)).
Proof.
  destruct wire; cbn [extracted_fields dimensions];
    try apply spec_validate_inv;
    unfold Dimensions_inv, Dimensions_typed, is_uint16; cbn; lia.
Qed.

Lemma fields_extracted_dec (wire : telegram_api_PhotoSize) :
  fields_extracted wire
  \/ (exists t, wire = photoSizeEmpty t)
  \/ (exists t b, wire = photoStrippedSize t b)
  \/ (exists t b, wire = photoPathSize t b)
  \/ (exists t w h, wire = photoSizeProgressive t w h [])
  \/ (exists t w h b, wire = photoCachedSize t w h b
                      /\ int32_max < Z.of_nat (List.length b)).
Proof.
  destruct wire as [t | t w h s | t w h b | t b | t w h sizes | t b];
    cbn [fields_extracted]; eauto 8.
  - destruct (Z_le_gt_dec (Z.of_nat (List.length b)) int32_max);
      [ now left | ].
    do 5 right. exists t, w, h, b. split; [ reflexivity | lia ].
  - destruct sizes; [ | left; discriminate ].
    do 4 right. left. eauto.
Qed.

Lemma get_photo_size_oversized (source : PhotoSizeSource) (id access_hash : Z)
    (file_reference : bytes) (dc_id owner : Z) (t : string) (w h : Z)
    (b : bytes) (format : PhotoFormat) (st : World) :
  int32_max < Z.of_nat (List.length b) ->
  get_photo_size source id access_hash file_reference dc_id owner
    (Some (photoCachedSize t w h b)) format st = None.
Proof.
  intros Hb. cbn [get_photo_size]. unfold bind at 1, CHECK.
  replace (Z.of_nat (List.length b) <=? int32_max) with false
    by (symmetry; apply Z.leb_gt; lia).
  reflexivity.
Qed.

(** X7: [get_photo_size] stops the process in two cases only: a null record,
    and a cached record whose bytes are longer than the largest [int32];
    every other record gives a result. *)
Theorem get_photo_size_aborts (source : PhotoSizeSource) (id access_hash : Z)
    (file_reference : bytes) (dc_id owner : Z)
    (size_ptr : option telegram_api_PhotoSize) (format : PhotoFormat)
    (st : World) :
  get_photo_size source id access_hash file_reference dc_id owner size_ptr
    format st = None
  <-> size_ptr = None
      \/ exists t w h b,
           size_ptr = Some (photoCachedSize t w h b)
           /\ int32_max < Z.of_nat (List.length b).
Proof.
  split.
  - destruct size_ptr as [wire | ]; [ | now left ].
    intros Hnone. right.
    destruct (fields_extracted_dec wire)
      as [Hx | [(t & ->) | [(t & b & ->) | [(t & b & ->)
          | [(t & w & h & ->) | (t & w & h & b & -> & Hb)]]]]].
    + destruct (get_photo_size_extracted source id access_hash file_reference
                  dc_id owner wire format st Hx) as (lines & E).
      cbv zeta in E. congruence.
    + discriminate Hnone.
    + cbn in Hnone. destruct format; discriminate Hnone.
    + cbn in Hnone. destruct format; discriminate Hnone.
    + discriminate Hnone.
    + eauto 6.
  - intros [-> | (t & w & h & b & -> & Hb)]; [ reflexivity | ].
    now apply get_photo_size_oversized.
Qed.

(** X8: a vector-path record under the formats TGS, WEBP and WEBM gives its
    bytes as they are, with the state unchanged; under any other format it
    gives the empty descriptor, with one log line and no call to the file
    manager. *)
Theorem get_photo_size_path (source : PhotoSizeSource) (id access_hash : Z)
    (file_reference : bytes) (dc_id owner : Z) (type_ : string)
    (bytes_ : bytes) (format : PhotoFormat) (st : World) :
  (format = Tgs \/ format = Webp \/ format = Webm ->
   get_photo_size source id access_hash file_reference dc_id owner
     (Some (photoPathSize type_ bytes_)) format st = Some (inr bytes_, st))
  /\ (format <> Tgs -> format <> Webp -> format <> Webm ->
      get_photo_size source id access_hash file_reference dc_id owner
        (Some (photoPathSize type_ bytes_)) format st
      = Some (inl PhotoSize_default,
              mkWorld (fm st) (calls st)
                (log st
                 ++ [(ERROR, Unexpected_SVG_minithumbnail id source format)]))).
Proof.
  split.
  - intros [-> | [-> | ->]]; reflexivity.
  - intros H1 H2 H3. destruct format; try reflexivity; contradiction.
Qed.

(** X9: [get_photo_size] returns inline bytes in two cases only, a stripped
    record under JPEG and a vector-path record under TGS, WEBP or WEBM; the
    bytes are those of the record, and the file manager, the calls and the
    log are as they were. *)
Theorem get_photo_size_inline (source : PhotoSizeSource) (id access_hash : Z)
    (file_reference : bytes) (dc_id owner : Z)
    (wire : telegram_api_PhotoSize) (format : PhotoFormat) (st st' : World)
    (b : bytes) :
  get_photo_size source id access_hash file_reference dc_id owner
    (Some wire) format st = Some (inr b, st') ->
  st' = st
  /\ ((exists t, wire = photoStrippedSize t b /\ format = Jpeg)
      \/ (exists t, wire = photoPathSize t b
                    /\ (format = Tgs \/ format = Webp \/ format = Webm))).
Proof.
  intros H.
  destruct (fields_extracted_dec wire)
    as [Hx | [(t & ->) | [(t & b' & ->) | [(t & b' & ->)
        | [(t & w & h & ->) | (t & w & h & b' & -> & Hb)]]]]].
  - destruct (get_photo_size_extracted source id access_hash file_reference
                dc_id owner wire format st Hx) as (lines & E).
    cbv zeta in E. congruence.
  - discriminate H.
  - cbn in H. destruct format; cbn in H; try discriminate H.
    injection H as <- <-. split; [ reflexivity | ]. left. eauto.
  - cbn in H. destruct format; cbn in H; try discriminate H;
      injection H as <- <-; (split; [ reflexivity | ]); right; eauto 6.
  - discriminate H.
  - rewrite get_photo_size_oversized in H by assumption. discriminate H.
Qed.

Lemma get_photo_size_descriptor (source : PhotoSizeSource)
    (id access_hash : Z) (file_reference : bytes) (dc_id owner : Z)
    (wire : telegram_api_PhotoSize) (format : PhotoFormat) (st st' : World)
    (res : PhotoSize) :
  get_photo_size source id access_hash file_reference dc_id owner
    (Some wire) format st = Some (inl res, st') ->
  0 <= type res < 128
  /\ PhotoSize_typed res /\ Dimensions_inv (dimensions res).
Proof.
  intros H.
  assert (Hdefault : 0 <= type PhotoSize_default < 128
                     /\ PhotoSize_typed PhotoSize_default
                     /\ Dimensions_inv (dimensions PhotoSize_default))
    by (unfold PhotoSize_typed, Dimensions_typed, Dimensions_inv, is_byte_tag,
          is_uint16; cbn; lia).
  destruct (fields_extracted_dec wire)
    as [Hx | [(t & ->) | [(t & b' & ->) | [(t & b' & ->)
        | [(t & w & h & ->) | (t & w & h & b' & -> & Hb)]]]]].
  - destruct (get_photo_size_extracted source id access_hash file_reference
                dc_id owner wire format st Hx) as (lines & E).
    cbv zeta in E. rewrite E in H. injection H as <- _.
    cbn [type dimensions set_file_id set_type].
    pose proof (tag_in_range (wire_type_ wire)) as Ht.
    pose proof (extracted_fields_dimensions wire) as [Hi Hd].
    unfold PhotoSize_typed, is_byte_tag.
    cbn [type dimensions set_file_id set_type].
    split; [ lia | split; [ split; [ lia | exact Hd ] | exact Hi ] ].
  - injection H as <- _. exact Hdefault.
  - cbn in H. destruct format; cbn in H; try discriminate H;
      injection H as <- _; exact Hdefault.
  - cbn in H. destruct format; cbn in H; try discriminate H;
      injection H as <- _; exact Hdefault.
  - injection H as <- _. exact Hdefault.
  - rewrite get_photo_size_oversized in H by assumption. discriminate H.
Qed.

(** X10: every descriptor that [get_photo_size] returns has a tag between 0
    and 127 and dimensions within [uint16] that are both zero or both
    nonzero: it meets the conditions under which [operator<] orders
    descriptors. *)
Theorem get_photo_size_well_formed (source : PhotoSizeSource)
    (id access_hash : Z) (file_reference : bytes) (dc_id owner : Z)
    (wire : telegram_api_PhotoSize) (format : PhotoFormat) (st st' : World)
    (res : PhotoSize) :
  get_photo_size source id access_hash file_reference dc_id owner
    (Some wire) format st = Some (inl res, st') ->
  0 <= type res < 128
  /\ PhotoSize_typed res /\ Dimensions_inv (dimensions res).
Proof.
  exact (get_photo_size_descriptor source id access_hash file_reference
           dc_id owner wire format st st' res).
Qed.

(** X11: for a plain, cached or progressive record whose fields are
    extracted, the file is registered once, before any content is set: at
    the location built from the source, in which a source of kind thumbnail
    carries the tag of the descriptor and any other source is unchanged; as
    coming from the user in a secret chat and from the server otherwise;
    with the size of the descriptor, the expected size 0 and a name that ends
    with the extension of the format. *)
Theorem get_photo_size_registers (source : PhotoSizeSource)
    (id access_hash : Z) (file_reference : bytes) (dc_id owner : Z)
    (wire : telegram_api_PhotoSize) (format : PhotoFormat) (st : World) :
  fields_extracted wire ->
  exists res st' rest,
    get_photo_size source id access_hash file_reference dc_id owner
      (Some wire) format st = Some (inl res, st')
    /\ let source' :=
         match source with
         | Source_Thumbnail ft _ => Source_Thumbnail ft (type res)
         | Source_other c => Source_other c
         end in
       let location :=
         PhotoRemoteLocation source' id access_hash dc_id file_reference in
       let fls :=
         if DialogType_is_SecretChat (DialogId_get_type owner)
         then FromUser else FromServer in
       let name := (get_unique_name source' id ++ "."
                    ++ PhotoFormat_to_string format)%string in
       calls st'
       = calls st ++ Call_register_remote location fls owner (size res) 0 name
                     :: rest
       /\ file_id res
          = fst (register_remote (fm st) location fls owner (size res) 0 name)
       /\ (rest = [] \/ rest = [Call_set_content (file_id res)
                                  (wire_content wire)]).
Proof.
  intros Hx.
  destruct (get_photo_size_extracted source id access_hash file_reference
              dc_id owner wire format st Hx) as (lines & E).
  cbv zeta in E. rewrite E. clear E.
  destruct source as [ft old | c];
    cbn [PhotoSizeSource_is_Thumbnail set_thumbnail_type];
    do 3 eexists; (split; [ reflexivity | ]);
    cbv zeta; cbn [calls type size file_id set_file_id set_type];
    (split; [ reflexivity | split; [ reflexivity | ] ]);
    destruct (List.length (wire_content wire) =? 0)%nat; auto.
Qed.

Lemma sorted_permutation_unique (l1 l2 : list Z) :
  StronglySorted Z.le l1 -> StronglySorted Z.le l2 -> Permutation l1 l2 ->
  l1 = l2.
Proof.
  revert l2. induction l1 as [ | a t1 IH]; intros l2 H1 H2 Hp.
  - apply Permutation_nil in Hp. now subst.
  - destruct l2 as [ | b t2];
      [ apply Permutation_sym, Permutation_nil in Hp; discriminate Hp | ].
    inversion H1 as [ | ? ? Hs1 Ha]; subst.
    inversion H2 as [ | ? ? Hs2 Hb]; subst.
    rewrite Forall_forall in Ha, Hb.
    assert (Hab : a = b).
    { assert (Hin1 : In a (b :: t2))
        by (eapply Permutation_in; [ exact Hp | now left ]).
      assert (Hin2 : In b (a :: t1))
        by (eapply Permutation_in;
            [ apply Permutation_sym; exact Hp | now left ]).
      destruct Hin1 as [-> | Hin1]; [ reflexivity | ].
      destruct Hin2 as [-> | Hin2]; [ reflexivity | ].
      apply Hb in Hin1. apply Ha in Hin2. lia. }
    subst b. f_equal. apply IH; try assumption.
    eapply Permutation_cons_inv. exact Hp.
Qed.

Lemma sort_permutation (l1 l2 : list Z) :
  Permutation l1 l2 -> Int32Sort.sort l1 = Int32Sort.sort l2.
Proof.
  intros Hp. apply sorted_permutation_unique; try apply sort_Sorted.
  eapply Permutation_trans;
    [ apply Permutation_sym, Int32Sort.Permuted_sort | ].
  eapply Permutation_trans; [ exact Hp | apply Int32Sort.Permuted_sort ].
Qed.

(** X23: the order in which a progressive record lists its scan sizes does
    not matter: two records that differ by a permutation of the sizes decode
    to the same result and the same state. *)
Theorem get_photo_size_progressive_order (source : PhotoSizeSource)
    (id access_hash : Z) (file_reference : bytes) (dc_id owner : Z)
    (type_ : string) (w_ h_ : Z) (sizes1 sizes2 : list Z)
    (format : PhotoFormat) (st : World) :
  Permutation sizes1 sizes2 ->
  get_photo_size source id access_hash file_reference dc_id owner
    (Some (photoSizeProgressive type_ w_ h_ sizes1)) format st
  = get_photo_size source id access_hash file_reference dc_id owner
      (Some (photoSizeProgressive type_ w_ h_ sizes2)) format st.
Proof.
  intros Hp. cbn [get_photo_size].
  rewrite (Permutation_length Hp), (sort_permutation _ _ Hp). reflexivity.
Qed.

(** X24: two descriptors that [get_photo_size] returns are ordered one way
    by [operator<] and not the other as soon as they differ in the tag, the
    dimensions, the size or the file handle. *)
Theorem get_photo_size_results_ordered (source1 source2 : PhotoSizeSource)
    (id1 id2 hash1 hash2 : Z) (ref1 ref2 : bytes) (dc1 dc2 owner1 owner2 : Z)
    (wire1 wire2 : telegram_api_PhotoSize) (format1 format2 : PhotoFormat)
    (st1 st1' st2 st2' : World) (res1 res2 : PhotoSize) :
  get_photo_size source1 id1 hash1 ref1 dc1 owner1 (Some wire1) format1 st1
  = Some (inl res1, st1') ->
  get_photo_size source2 id2 hash2 ref2 dc2 owner2 (Some wire2) format2 st2
  = Some (inl res2, st2') ->
  type res1 <> type res2 \/ dimensions res1 <> dimensions res2
    \/ size res1 <> size res2 \/ file_id res1 <> file_id res2 ->
  (PhotoSize_ltb res1 res2 = true /\ PhotoSize_ltb res2 res1 = false)
  \/ (PhotoSize_ltb res1 res2 = false /\ PhotoSize_ltb res2 res1 = true).
Proof.
  intros H1 H2 Hne.
  apply get_photo_size_descriptor in H1, H2.
  destruct H1 as (_ & Ht1 & Hi1), H2 as (_ & Ht2 & Hi2).
  pose proof (typed_keys_differ res1 res2 Ht1 Hi1 Ht2 Hi2 Hne) as Hk.
  destruct (lex5_total _ _ Hk) as [H | H]; apply PhotoSize_ltb_lex in H.
  - left. split; [ exact H | ].
    destruct (PhotoSize_ltb res2 res1) eqn:H'; [ | reflexivity ].
    apply PhotoSize_ltb_lex in H, H'.
    destruct (lex5_irrefl _ (lex5_trans _ _ _ H H')).
  - right. split; [ | exact H ].
    destruct (PhotoSize_ltb res1 res2) eqn:H'; [ | reflexivity ].
    apply PhotoSize_ltb_lex in H, H'.
    destruct (lex5_irrefl _ (lex5_trans _ _ _ H H')).
Qed.

(** X25: validation is idempotent: validating the width and height of a
    validated pair gives the same pair, and logs nothing. *)
Theorem get_dimensions_idempotent (w h : Z) (source1 source2 : string)
    (st1 st2 : World) :
  exists d st1',
    get_dimensions w h source1 st1 = Some (d, st1')
    /\ get_dimensions (width d) (height d) source2 st2 = Some (d, st2).
Proof.
  destruct (get_dimensions_run w h source1 st1) as (l1 & st1' & E1 & _).
  exists (spec_validate w h), st1'. split; [ exact E1 | ].
  pose proof (spec_validate_inv w h) as [Hi [Hw Hh]].
  destruct (get_dimensions_run (width (spec_validate w h))
              (height (spec_validate w h)) source2 st2)
    as (l2 & st2' & E2 & L2 & N2 & _).
  rewrite E2. unfold is_uint16 in Hw, Hh.
  rewrite (N2 Hw Hh) in L2. unfold logged in L2. subst st2'.
  f_equal. f_equal.
  - destruct (spec_validate w h) as [w' h'].
    unfold Dimensions_inv in Hi. cbn [width height] in *.
    unfold spec_validate.
    destruct (Z.leb_spec 1 w'), (Z.leb_spec w' 65535), (Z.leb_spec 1 h'),
      (Z.leb_spec h' 65535); cbn [andb]; try reflexivity; f_equal; lia.
  - destruct st2. cbn. now rewrite app_nil_r.
Qed.

(** X26: on dimensions within [uint16] the pixel count is the product of
    width and height, with no wrap-around of the 32-bit product: it is at
    most 65535 squared, and when the dimensions are both zero or both
    nonzero it is zero exactly for the zero pair. *)
Theorem get_pixel_count_exact (d : Dimensions) :
  Dimensions_typed d ->
  get_pixel_count d = width d * height d
  /\ 0 <= get_pixel_count d <= 65535 * 65535
  /\ (Dimensions_inv d -> (get_pixel_count d = 0 <-> d = mkDimensions 0 0)).
Proof.
  intros Hd. pose proof (pixel_count_exact d Hd) as E. rewrite E.
  destruct d as [w h]. destruct Hd as [Hw Hh].
  unfold is_uint16, Dimensions_inv in *. cbn in *.
  split; [ reflexivity | split; [ nia | ] ].
  intros Hi. split.
  - intros H0. destruct Hi as [[Hw0 Hh0] | [-> ->]]; [ nia | reflexivity ].
  - intros H. injection H as -> ->. reflexivity.
Qed.

(** ** [get_animation_size] *)

Lemma get_animation_size_full (source : PhotoSizeSource) (id access_hash : Z)
    (file_reference : bytes) (dc_id owner : Z) (sz : videoSize) (st : World) :
  let c := uint8_of_ascii (string_front (video_type_ sz)) in
  let t := if c <? 128 then c else 0 in
  let source' := if PhotoSizeSource_is_Thumbnail source
                 then set_thumbnail_type source t else source in
  let loc := PhotoRemoteLocation source' id access_hash dc_id file_reference in
  let fls := if DialogType_is_SecretChat (DialogId_get_type owner)
             then FromUser else FromServer in
  let name := (get_unique_name source' id ++ "."
               ++ PhotoFormat_to_string Mpeg4)%string in
  let reg := register_remote (fm st) loc fls owner (video_size_ sz) 0 name in
  exists lines,
    get_animation_size source id access_hash file_reference dc_id owner
      (Some sz) st
    = Some (mkAnimationSize
              (mkPhotoSize t (spec_validate (video_w_ sz) (video_h_ sz))
                 (video_size_ sz) (fst reg) [])
              (if negb (Z.land (video_flags_ sz) VIDEO_START_TS_MASK =? 0)
               then video_start_ts_ sz else 0%float),
            mkWorld (snd reg)
              (calls st ++ [Call_register_remote loc fls owner
                              (video_size_ sz) 0 name])
              (log st ++ lines)).
Proof.
  cbv zeta. unfold get_animation_size.
  set (unknown := negb (String.eqb (video_type_ sz) "v")
                  && negb (String.eqb (video_type_ sz) "u")).
  set (c := uint8_of_ascii (string_front (video_type_ sz))).
  unfold bind at 1.
  assert (E1 : exists l1,
             when unknown
               (LOG ERROR (Wrong_videoSize_tag (video_type_ sz))) st
             = Some (tt, mkWorld (fm st) (calls st) (log st ++ l1))).
  { destruct unknown; cbn; eexists; [ reflexivity | ].
    destruct st; cbn. now rewrite app_nil_r. }
  destruct E1 as (l1 & ->).
  set (st1 := mkWorld _ _ _).
  unfold bind at 1. cbn [type set_type PhotoSize_default].
  rewrite Z.leb_antisym.
  set (t := if c <? 128 then c else 0).
  assert (E2 : exists l2,
             (if negb (c <? 128)
              then bind (LOG ERROR (Wrong_videoSize_byte c))
                     (fun _ => ret (set_type
                        (set_type PhotoSize_default c) 0))
              else ret (set_type PhotoSize_default c)) st1
             = Some (set_type PhotoSize_default t,
                     mkWorld (fm st) (calls st) (log st ++ l1 ++ l2))).
  { unfold t. destruct (c <? 128); cbn; eexists.
    - now rewrite app_nil_r.
    - now rewrite <- app_assoc. }
  destruct E2 as (l2 & E2).
  unfold set_type at 1 2 in E2. unfold set_type at 1 2.
  cbn [type dimensions size file_id progressive_sizes PhotoSize_default]
    in E2 |- *.
  rewrite E2. clear E2.
  set (st2 := mkWorld _ _ _).
  destruct (get_dimensions_run (video_w_ sz) (video_h_ sz)
              "get_animation_size" st2) as (lines_d & st3 & E3 & L3 & _ & _).
  unfold bind at 1. rewrite E3.
  unfold bind at 1. rewrite register_photo_size_run. cbv zeta.
  unfold logged in L3. subst st3. unfold st2.
  cbn [fm calls log size set_size set_dimensions set_type type dimensions
       file_id progressive_sizes set_file_id fst snd ret].
  eexists. rewrite <- !app_assoc. reflexivity.
Qed.

(** X12: [get_animation_size] stops the process on a null record and on no
    other; the descriptor of a record has the validated dimensions, the
    declared size, no progressive sizes and a tag between 0 and 127, and the
    timestamp of the record when the flag is set in [flags_], 0.0 when it is
    not. *)
Theorem get_animation_size_result (source : PhotoSizeSource)
    (id access_hash : Z) (file_reference : bytes) (dc_id owner : Z)
    (sz : videoSize) (st : World) :
  get_animation_size source id access_hash file_reference dc_id owner None st
  = None
  /\ exists res st',
       get_animation_size source id access_hash file_reference dc_id owner
         (Some sz) st = Some (res, st')
       /\ main_frame_timestamp res
          = (if Z.land (video_flags_ sz) VIDEO_START_TS_MASK =? 0
             then 0%float else video_start_ts_ sz)
       /\ dimensions (as_photo_size res)
          = spec_validate (video_w_ sz) (video_h_ sz)
       /\ size (as_photo_size res) = video_size_ sz
       /\ progressive_sizes (as_photo_size res) = []
       /\ 0 <= type (as_photo_size res) < 128
       /\ PhotoSize_typed (as_photo_size res)
       /\ Dimensions_inv (dimensions (as_photo_size res)).
Proof.
  split; [ reflexivity | ].
  destruct (get_animation_size_full source id access_hash file_reference
              dc_id owner sz st) as (lines & E).
  cbv zeta in E. rewrite E. do 2 eexists. split; [ reflexivity | ].
  cbn [as_photo_size main_frame_timestamp type dimensions size
       progressive_sizes].
  pose proof (spec_validate_inv (video_w_ sz) (video_h_ sz)) as [Hi Hd].
  assert (Ht : 0 <= (if uint8_of_ascii (string_front (video_type_ sz)) <? 128
                     then uint8_of_ascii (string_front (video_type_ sz))
                     else 0) < 128).
  { destruct (Z.ltb_spec (uint8_of_ascii (string_front (video_type_ sz))) 128);
      unfold uint8_of_ascii in *; lia. }
  split; [ now destruct (_ =? 0) | ].
  do 3 (split; [ reflexivity | ]).
  split; [ exact Ht | ].
  split; [ | exact Hi ].
  unfold PhotoSize_typed, is_byte_tag. cbn [type dimensions].
  split; [ lia | exact Hd ].
Qed.

(** X13: [get_animation_size] makes one call to the file manager, the
    registration: under a name that ends with ".mp4" whatever the tag of the
    record, with a source of kind thumbnail carrying the tag of the
    descriptor, and the handle of the descriptor is the one returned. *)
Theorem get_animation_size_registers (source : PhotoSizeSource)
    (id access_hash : Z) (file_reference : bytes) (dc_id owner : Z)
    (sz : videoSize) (st : World) :
  exists res st',
    get_animation_size source id access_hash file_reference dc_id owner
      (Some sz) st = Some (res, st')
    /\ let source' :=
         match source with
         | Source_Thumbnail ft _ =>
             Source_Thumbnail ft (type (as_photo_size res))
         | Source_other c => Source_other c
         end in
       let location :=
         PhotoRemoteLocation source' id access_hash dc_id file_reference in
       let fls :=
         if DialogType_is_SecretChat (DialogId_get_type owner)
         then FromUser else FromServer in
       let name := (get_unique_name source' id ++ ".mp4")%string in
       calls st'
       = calls st ++ [Call_register_remote location fls owner
                        (video_size_ sz) 0 name]
       /\ file_id (as_photo_size res)
          = fst (register_remote (fm st) location fls owner
                   (video_size_ sz) 0 name)
       /\ fm st'
          = snd (register_remote (fm st) location fls owner
                   (video_size_ sz) 0 name).
Proof.
  destruct (get_animation_size_full source id access_hash file_reference
              dc_id owner sz st) as (lines & E).
  cbv zeta in E. rewrite E. clear E.
  destruct source as [ft old | c];
    cbn [PhotoSizeSource_is_Thumbnail set_thumbnail_type];
    do 2 eexists; (split; [ reflexivity | ]);
    cbv zeta; cbn [calls fm as_photo_size type file_id PhotoFormat_to_string];
    repeat split.
Qed.

(** ** [get_web_document_photo_size] *)

Lemma no_unexpected_attribute_line (lines : list LogEntry) :
  Forall (fun e => is_wrong_image_dimension e = true) lines ->
  filter is_unexpected_attribute_line lines = [].
Proof.
  induction 1 as [ | e l He _ IH]; cbn; [ reflexivity | ].
  rewrite IH. destruct e as [[ | ] [ ]]; cbn in *; congruence.
Qed.

Lemma web_document_dimensions_run (attributes : list DocumentAttribute)
    (dims : Dimensions) (st : World) :
  exists d lines,
    web_document_dimensions attributes dims st
    = Some (d, mkWorld (fm st) (calls st) (log st ++ lines))
    /\ filter is_unexpected_attribute_line lines
       = map (fun a => (ERROR, Unexpected_web_document_attribute a))
           (filter is_unexpected_attribute attributes)
    /\ (forall before w h after,
          attributes = before ++ documentAttributeImageSize w h :: after ->
          forallb (fun a => negb (is_image_size a)) after = true ->
          d = spec_validate w h)
    /\ (forallb (fun a => negb (is_image_size a)) attributes = true ->
        d = dims).
Proof.
  revert dims st.
  induction attributes as [ | a attributes IH]; intros dims st.
  - exists dims, []. cbn. rewrite app_nil_r. destruct st. cbn.
    split; [ reflexivity | split; [ reflexivity | split ] ].
    + intros [ | ? ?] w h after H; discriminate H.
    + reflexivity.
  - cbn [web_document_dimensions]. unfold bind at 1.
    assert (Hstep : exists d1 l1,
               match a with
               | documentAttributeImageSize w_ h_ =>
                   get_dimensions w_ h_ "web documentAttributeImageSize"
               | documentAttributeFilename _ => ret dims
               | _ => bind (LOG ERROR (Unexpected_web_document_attribute a))
                        (fun _ => ret dims)
               end st
               = Some (d1, mkWorld (fm st) (calls st) (log st ++ l1))
               /\ filter is_unexpected_attribute_line l1
                  = (if is_unexpected_attribute a
                     then [(ERROR, Unexpected_web_document_attribute a)]
                     else [])
               /\ d1 = match a with
                       | documentAttributeImageSize w_ h_ =>
                           spec_validate w_ h_
                       | _ => dims
                       end).
    { destruct a as [w_ h_ | | | | | | name];
        try (eexists dims, [(ERROR, Unexpected_web_document_attribute _)];
             split; [ reflexivity | split; reflexivity ]).
      - destruct (get_dimensions_run w_ h_ "web documentAttributeImageSize" st)
          as (l1 & st1 & E & L & _ & F).
        exists (spec_validate w_ h_), l1. unfold logged in L. subst st1.
        split; [ exact E | split; [ | reflexivity ] ].
        now apply no_unexpected_attribute_line.
      - exists dims, []. cbn. rewrite app_nil_r. destruct st. now cbn. }
    destruct Hstep as (d1 & l1 & E1 & F1 & D1).
    match goal with
    | |- context [match ?c st with _ => _ end] =>
        replace (c st)
          with (Some (d1, mkWorld (fm st) (calls st) (log st ++ l1)))
          by (rewrite <- E1; destruct a; reflexivity)
    end.
    destruct (IH d1 (mkWorld (fm st) (calls st) (log st ++ l1)))
      as (d & l2 & E2 & F2 & Hlast & Hnone).
    exists d, (l1 ++ l2). cbn [fm calls log] in E2.
    split; [ rewrite E2, app_assoc; reflexivity | split; [ | split ] ].
    + rewrite filter_app, F1, F2. cbn [filter].
      destruct (is_unexpected_attribute a); reflexivity.
    + intros before w h after Happ Hafter.
      destruct before as [ | b before]; cbn [app] in Happ.
      * injection Happ as -> ->. rewrite (Hnone Hafter). exact D1.
      * injection Happ as -> ->. eapply Hlast; [ reflexivity | exact Hafter ].
    + cbn [forallb]. intros Hall. apply andb_true_iff in Hall.
      destruct Hall as [Ha Hrest]. rewrite (Hnone Hrest), D1.
      destruct a; try reflexivity; discriminate Ha.
Qed.

(** X14: the loop over the attributes of a web document never stops the
    process and makes no call to the file manager; it logs one error for each
    animated, has-stickers, sticker, video or audio attribute, in their
    order, and none for a file name; the dimensions it returns are those of
    the last image-size attribute, validated, or the initial ones when there
    is none. *)
Theorem web_document_dimensions_loop (attributes : list DocumentAttribute)
    (dims : Dimensions) (st : World) :
  exists d lines,
    web_document_dimensions attributes dims st
    = Some (d, mkWorld (fm st) (calls st) (log st ++ lines))
    /\ filter is_unexpected_attribute_line lines
       = map (fun a => (ERROR, Unexpected_web_document_attribute a))
           (filter is_unexpected_attribute attributes)
    /\ (forall before w h after,
          attributes = before ++ documentAttributeImageSize w h :: after ->
          forallb (fun a => negb (is_image_size a)) after = true ->
          d = spec_validate w h)
    /\ (forallb (fun a => negb (is_image_size a)) attributes = true ->
        d = dims).
Proof. exact (web_document_dimensions_run attributes dims st). Qed.

Lemma web_document_dimensions_inv (attributes : list DocumentAttribute)
    (dims d : Dimensions) (st st' : World) :
  web_document_dimensions attributes dims st = Some (d, st') ->
  Dimensions_inv dims /\ Dimensions_typed dims ->
  Dimensions_inv d /\ Dimensions_typed d.
Proof.
  revert dims st.
  induction attributes as [ | a attributes IH]; intros dims st H Hd.
  - cbn in H. injection H as <- _. exact Hd.
  - cbn [web_document_dimensions] in H. unfold bind at 1 in H.
    destruct a as [w_ h_ | | | | | | name];
      try (cbn in H; eapply IH; [ exact H | exact Hd ]).
    destruct (get_dimensions_run w_ h_ "web documentAttributeImageSize" st)
      as (l1 & st1 & E & _).
    rewrite E in H. eapply IH; [ exact H | apply spec_validate_inv ].
Qed.

Lemma get_web_document_photo_size_tail_run (file_type : FileType)
    (fid : FileId) (attributes : list DocumentAttribute) (sz : Z)
    (mime_type : string) (st : World) :
  (FileId_is_valid fid = false ->
   get_web_document_photo_size_tail file_type fid attributes sz mime_type st
   = None)
  /\ (FileId_is_valid fid = true ->
      exists d lines,
        get_web_document_photo_size_tail file_type fid attributes sz
          mime_type st
        = Some (mkPhotoSize (web_document_type mime_type file_type) d sz fid [],
                mkWorld (fm st) (calls st) (log st ++ lines))
        /\ Dimensions_inv d /\ Dimensions_typed d).
Proof.
  unfold get_web_document_photo_size_tail, CHECK.
  split; intros Hv; unfold bind at 1; rewrite Hv; [ reflexivity | ].
  destruct (web_document_dimensions_run attributes Dimensions_default st)
    as (d & lines & E & _).
  exists d, lines. unfold bind at 1. rewrite E.
  split; [ reflexivity | ].
  eapply web_document_dimensions_inv; [ exact E | ].
  unfold Dimensions_inv, Dimensions_typed, is_uint16. cbn. lia.
Qed.

Lemma bind_call_register_remote {A : Type} (location : FullRemoteFileLocation)
    (source : FileLocationSource) (owner sz expected : Z) (name : string)
    (k : FileId -> M A) (st : World) :
  bind (call_register_remote location source owner sz expected name) k st
  = k (fst (register_remote (fm st) location source owner sz expected name))
      (mkWorld
         (snd (register_remote (fm st) location source owner sz expected name))
         (calls st ++ [Call_register_remote location source owner sz expected
                         name])
         (log st)).
Proof.
  unfold bind, call_register_remote.
  now destruct (register_remote (fm st) location source owner sz expected name).
Qed.

Lemma bind_call_from_persistent_id {A : Type} (persistent_id : string)
    (file_type : FileType) (k : option FileId -> M A) (st : World) :
  bind (call_from_persistent_id persistent_id file_type) k st
  = k (fst (from_persistent_id (fm st) persistent_id file_type))
      (mkWorld (snd (from_persistent_id (fm st) persistent_id file_type))
         (calls st ++ [Call_from_persistent_id persistent_id file_type])
         (log st)).
Proof.
  unfold bind, call_from_persistent_id.
  now destruct (from_persistent_id (fm st) persistent_id file_type).
Qed.

Lemma get_web_document_photo_size_url_run (file_type : FileType) (owner : Z)
    (url_ : string) (access_hash_ size_ : Z) (mime_type_ : string)
    (attributes_ : list DocumentAttribute) (st : World) :
  let doc := webDocument url_ access_hash_ size_ mime_type_ attributes_ in
  (parse_url url_ = None ->
   get_web_document_photo_size file_type owner (Some doc) st
   = Some (PhotoSize_default,
           mkWorld (fm st) (calls st)
             (log st ++ [(ERROR, Cannot_parse_URL url_)])))
  /\ (forall http_url, parse_url url_ = Some http_url ->
      let location :=
        WebRemoteLocation file_type (HttpUrl_get_url http_url) access_hash_ in
      let name := get_url_query_file_name (HttpUrl_query_ http_url) in
      let reg :=
        register_remote (fm st) location FromServer owner 0 size_ name in
      (FileId_is_valid (fst reg) = false ->
       get_web_document_photo_size file_type owner (Some doc) st = None)
      /\ (FileId_is_valid (fst reg) = true ->
          exists d lines,
            get_web_document_photo_size file_type owner (Some doc) st
            = Some (mkPhotoSize (web_document_type mime_type_ file_type) d
                      size_ (fst reg) [],
                    mkWorld (snd reg)
                      (calls st ++ [Call_register_remote location FromServer
                                      owner 0 size_ name])
                      (log st ++ lines))
            /\ Dimensions_inv d /\ Dimensions_typed d)).
Proof.
  cbv zeta. split.
  - intros Hp. cbn [get_web_document_photo_size]. now rewrite Hp.
  - intros http_url Hp. cbn [get_web_document_photo_size]. rewrite Hp.
    rewrite bind_call_register_remote.
    match goal with
    | |- context [get_web_document_photo_size_tail ?a ?b ?c ?d ?e ?w] =>
        destruct (get_web_document_photo_size_tail_run a b c d e w)
          as [Hbad Hgood]
    end.
    split; [ exact Hbad | ].
    intros Hv. destruct (Hgood Hv) as (d & lines & E & Hd).
    exists d, lines. split; [ exact E | exact Hd ].
Qed.

(** X15: a web document given by URL.  When the URL does not parse, the
    result is the empty descriptor, with one log line and no call to the file
    manager.  When it parses, the file is registered from the server with
    size 0 and the declared size as expected size; an invalid handle stops
    the process, and a valid one gives a descriptor with that handle, the
    declared size, the tag of the media type, no progressive sizes and
    dimensions that are both zero or both nonzero. *)
Theorem get_web_document_photo_size_url (file_type : FileType) (owner : Z)
    (url_ : string) (access_hash_ size_ : Z) (mime_type_ : string)
    (attributes_ : list DocumentAttribute) (st : World) :
  let doc := webDocument url_ access_hash_ size_ mime_type_ attributes_ in
  (parse_url url_ = None ->
   get_web_document_photo_size file_type owner (Some doc) st
   = Some (PhotoSize_default,
           mkWorld (fm st) (calls st)
             (log st ++ [(ERROR, Cannot_parse_URL url_)])))
  /\ (forall http_url, parse_url url_ = Some http_url ->
      let location :=
        WebRemoteLocation file_type (HttpUrl_get_url http_url) access_hash_ in
      let name := get_url_query_file_name (HttpUrl_query_ http_url) in
      let reg :=
        register_remote (fm st) location FromServer owner 0 size_ name in
      (FileId_is_valid (fst reg) = false ->
       get_web_document_photo_size file_type owner (Some doc) st = None)
      /\ (FileId_is_valid (fst reg) = true ->
          exists d lines,
            get_web_document_photo_size file_type owner (Some doc) st
            = Some (mkPhotoSize (web_document_type mime_type_ file_type) d
                      size_ (fst reg) [],
                    mkWorld (snd reg)
                      (calls st ++ [Call_register_remote location FromServer
                                      owner 0 size_ name])
                      (log st ++ lines))
            /\ Dimensions_inv d /\ Dimensions_typed d)).
Proof.
  exact (get_web_document_photo_size_url_run file_type owner url_
           access_hash_ size_ mime_type_ attributes_ st).
Qed.

Lemma get_web_document_photo_size_no_proxy_run (file_type : FileType)
    (owner : Z) (url_ : string) (size_ : Z) (mime_type_ : string)
    (attributes_ : list DocumentAttribute) (st : World) :
  let doc := webDocumentNoProxy url_ size_ mime_type_ attributes_ in
  let resolved := from_persistent_id (fm st) url_ file_type in
  let called := calls st ++ [Call_from_persistent_id url_ file_type] in
  (string_contains "." url_ = false ->
   get_web_document_photo_size file_type owner (Some doc) st
   = Some (PhotoSize_default,
           mkWorld (fm st) (calls st) (log st ++ [(ERROR, Invalid_URL url_)])))
  /\ (string_contains "." url_ = true -> fst resolved = None ->
      get_web_document_photo_size file_type owner (Some doc) st
      = Some (PhotoSize_default,
              mkWorld (snd resolved) called
                (log st ++ [(ERROR, Cannot_register_URL)])))
  /\ (forall fid,
        string_contains "." url_ = true -> fst resolved = Some fid ->
        (FileId_is_valid fid = false ->
         get_web_document_photo_size file_type owner (Some doc) st = None)
        /\ (FileId_is_valid fid = true ->
            exists d lines,
              get_web_document_photo_size file_type owner (Some doc) st
              = Some (mkPhotoSize (web_document_type mime_type_ file_type) d
                        size_ fid [],
                      mkWorld (snd resolved) called (log st ++ lines))
              /\ Dimensions_inv d /\ Dimensions_typed d)).
Proof.
  cbv zeta. cbn [get_web_document_photo_size].
  split; [ | split ].
  - intros ->. reflexivity.
  - intros -> Hr. cbn [negb]. rewrite bind_call_from_persistent_id, Hr.
    reflexivity.
  - intros fid -> Hr. cbn [negb]. rewrite bind_call_from_persistent_id, Hr.
    match goal with
    | |- context [get_web_document_photo_size_tail ?a ?b ?c ?d ?e ?w] =>
        destruct (get_web_document_photo_size_tail_run a b c d e w)
          as [Hbad Hgood]
    end.
    split; [ exact Hbad | ].
    intros Hv. destruct (Hgood Hv) as (d & lines & E & Hd).
    exists d, lines. split; [ exact E | exact Hd ].
Qed.

(** X16: a web document given without proxy.  A reference with no '.' gives
    the empty descriptor, with one log line and no call to the file manager;
    a reference that the file manager does not resolve gives the empty
    descriptor after that one call; an invalid resolved handle stops the
    process; a valid one gives a descriptor with that handle, the declared
    size, the tag of the media type and no progressive sizes, and nothing is
    registered. *)
Theorem get_web_document_photo_size_no_proxy (file_type : FileType)
    (owner : Z) (url_ : string) (size_ : Z) (mime_type_ : string)
    (attributes_ : list DocumentAttribute) (st : World) :
  let doc := webDocumentNoProxy url_ size_ mime_type_ attributes_ in
  let resolved := from_persistent_id (fm st) url_ file_type in
  let called := calls st ++ [Call_from_persistent_id url_ file_type] in
  (string_contains "." url_ = false ->
   get_web_document_photo_size file_type owner (Some doc) st
   = Some (PhotoSize_default,
           mkWorld (fm st) (calls st) (log st ++ [(ERROR, Invalid_URL url_)])))
  /\ (string_contains "." url_ = true -> fst resolved = None ->
      get_web_document_photo_size file_type owner (Some doc) st
      = Some (PhotoSize_default,
              mkWorld (snd resolved) called
                (log st ++ [(ERROR, Cannot_register_URL)])))
  /\ (forall fid,
        string_contains "." url_ = true -> fst resolved = Some fid ->
        (FileId_is_valid fid = false ->
         get_web_document_photo_size file_type owner (Some doc) st = None)
        /\ (FileId_is_valid fid = true ->
            exists d lines,
              get_web_document_photo_size file_type owner (Some doc) st
              = Some (mkPhotoSize (web_document_type mime_type_ file_type) d
                        size_ fid [],
                      mkWorld (snd resolved) called (log st ++ lines))
              /\ Dimensions_inv d /\ Dimensions_typed d)).
Proof.
  exact (get_web_document_photo_size_no_proxy_run file_type owner url_ size_
           mime_type_ attributes_ st).
Qed.

Lemma get_web_document_photo_size_cases (file_type : FileType) (owner : Z)
    (web_document_ptr : option WebDocument) (st st' : World)
    (res : PhotoSize) :
  get_web_document_photo_size file_type owner web_document_ptr st
  = Some (res, st') ->
  res = PhotoSize_default
  \/ (FileId_is_valid (file_id res) = true
      /\ (exists mime_type, type res = web_document_type mime_type file_type)
      /\ progressive_sizes res = []
      /\ Dimensions_inv (dimensions res)
      /\ Dimensions_typed (dimensions res)).
Proof.
  intros H.
  destruct web_document_ptr as [[url_ ah sz mime attrs | url_ sz mime attrs] | ].
  - destruct (get_web_document_photo_size_url_run file_type owner url_ ah sz mime
                attrs st) as [Hnone Hsome].
    destruct (parse_url url_) as [http_url | ] eqn:Hp.
    + destruct (Hsome http_url eq_refl) as [Hbad Hgood].
      destruct (FileId_is_valid (fst (register_remote (fm st)
                  (WebRemoteLocation file_type (HttpUrl_get_url http_url) ah)
                  FromServer owner 0 sz
                  (get_url_query_file_name (HttpUrl_query_ http_url)))))
        eqn:Hv.
      * destruct (Hgood eq_refl) as (d & lines & E & Hi & Hd).
        rewrite E in H. injection H as <- _. right.
        cbn [file_id type progressive_sizes dimensions]. eauto 8.
      * rewrite (Hbad eq_refl) in H. discriminate H.
    + rewrite (Hnone eq_refl) in H. injection H as <- _. now left.
  - destruct (get_web_document_photo_size_no_proxy_run file_type owner url_ sz
                mime attrs st) as (Hdot & Hfail & Hok).
    destruct (string_contains "." url_) eqn:Hc.
    + destruct (fst (from_persistent_id (fm st) url_ file_type))
        as [fid | ] eqn:Hr.
      * destruct (Hok fid eq_refl eq_refl) as [Hbad Hgood].
        destruct (FileId_is_valid fid) eqn:Hv.
        -- destruct (Hgood eq_refl) as (d & lines & E & Hi & Hd).
           rewrite E in H. injection H as <- _. right.
           cbn [file_id type progressive_sizes dimensions]. eauto 8.
        -- rewrite (Hbad eq_refl) in H. discriminate H.
      * rewrite (Hfail eq_refl eq_refl) in H. injection H as <- _. now left.
    + rewrite (Hdot eq_refl) in H. injection H as <- _. now left.
  - cbn in H. injection H as <- _. now left.
Qed.

(** X17: a descriptor that [get_web_document_photo_size] returns is the
    empty one, or it has a valid file handle, one of the tags 'v', 'g', 't'
    and 'n', no progressive sizes, and dimensions within [uint16] that are
    both zero or both nonzero. *)
Theorem get_web_document_photo_size_well_formed (file_type : FileType)
    (owner : Z) (web_document_ptr : option WebDocument) (st st' : World)
    (res : PhotoSize) :
  get_web_document_photo_size file_type owner web_document_ptr st
  = Some (res, st') ->
  res = PhotoSize_default
  \/ (FileId_is_valid (file_id res) = true
      /\ (type res = tag_v \/ type res = tag_g
          \/ (type res = tag_t /\ file_type = FileType_Thumbnail)
          \/ (type res = tag_n /\ file_type <> FileType_Thumbnail))
      /\ progressive_sizes res = []
      /\ PhotoSize_typed res
      /\ Dimensions_inv (dimensions res)).
Proof.
  intros H. apply get_web_document_photo_size_cases in H.
  destruct H as [-> | (Hv & (mime & Ht) & Hp & Hi & Hd)]; [ now left | ].
  right. split; [ exact Hv | ].
  assert (Htag : type res = tag_v \/ type res = tag_g
                 \/ (type res = tag_t /\ file_type = FileType_Thumbnail)
                 \/ (type res = tag_n /\ file_type <> FileType_Thumbnail)).
  { rewrite Ht. unfold web_document_type.
    destruct (String.eqb mime "video/mp4"); [ now left | ].
    destruct (String.eqb mime "image/gif"); [ now right; left | ].
    destruct file_type; cbn; [ now right; right; left | ].
    right; right; right. split; [ reflexivity | discriminate ]. }
  split; [ exact Htag | split; [ exact Hp | split; [ | exact Hi ] ] ].
  split; [ | exact Hd ].
  unfold is_byte_tag, tag_v, tag_g, tag_t, tag_n in *.
  destruct Htag as [-> | [-> | [[-> _] | [-> _]]]]; lia.
Qed.

(** ** [get_secret_thumbnail_photo_size] *)

Lemma secret_photo_id_range (random : Z) :
  - int64_max <= - Z.land random int64_max <= 0.
Proof.
  change int64_max with (Z.ones 63). rewrite Z.land_ones by lia.
  pose proof (Z.mod_pos_bound random (2 ^ 63) ltac:(lia)) as H.
  change (Z.ones 63) with (2 ^ 63 - 1). lia.
Qed.

(** X18: the thumbnail of a secret chat.  Empty content gives the empty
    descriptor and leaves the state as it is.  Content of at most
    2147483647 bytes gives a descriptor tagged 't' with the validated
    dimensions and the length of the content as size, after two calls:
    the registration, from the server, of a location whose identifier is the
    random number with its sign bit cleared, negated, hence between
    -(2^63-1) and 0, and the storing of the content under the handle
    returned.  Longer content stops the process. *)
Theorem get_secret_thumbnail_photo_size_result (random : Z) (content : bytes)
    (owner w h : Z) (st : World) :
  let len := Z.of_nat (List.length content) in
  let photo_id := - Z.land random int64_max in
  let location :=
    PhotoRemoteLocation (Source_Thumbnail FileType_EncryptedThumbnail tag_t)
      photo_id 0 DcId_invalid [] in
  let name := (uint64_to_string (uint64_of_int64 photo_id) ++ ".jpg")%string in
  let reg := register_remote (fm st) location FromServer owner len 0 name in
  (content = [] ->
   get_secret_thumbnail_photo_size random content owner w h st
   = Some (PhotoSize_default, st))
  /\ (content <> [] -> len <= int32_max ->
      - int64_max <= photo_id <= 0
      /\ exists lines,
           get_secret_thumbnail_photo_size random content owner w h st
           = Some (mkPhotoSize tag_t (spec_validate w h) len (fst reg) [],
                   mkWorld (set_content (snd reg) (fst reg) content)
                     (calls st
                      ++ [Call_register_remote location FromServer owner len
                            0 name;
                          Call_set_content (fst reg) content])
                     (log st ++ lines)))
  /\ (int32_max < len ->
      get_secret_thumbnail_photo_size random content owner w h st = None).
Proof.
  cbv zeta. unfold get_secret_thumbnail_photo_size.
  split; [ | split ].
  - intros ->. reflexivity.
  - intros Hne Hlen. split; [ apply secret_photo_id_range | ].
    destruct content as [ | b content]; [ contradiction | ].
    cbn [List.length Nat.eqb].
    destruct (get_dimensions_run w h "get_secret_thumbnail_photo_size" st)
      as (lines & st1 & E & L & _).
    unfold bind at 1. rewrite E. unfold bind at 1, CHECK.
    replace (Z.of_nat (S (List.length content)) <=? int32_max) with true
      by (symmetry; now apply Z.leb_le).
    rewrite bind_call_register_remote.
    unfold logged in L. subst st1.
    cbn [fm calls log size set_size set_dimensions set_type set_file_id type
         dimensions file_id progressive_sizes PhotoSize_default].
    exists lines. unfold bind, call_set_content, ret.
    cbn [fm calls log]. rewrite <- app_assoc. reflexivity.
  - intros Hlen.
    destruct content as [ | b content];
      [ cbn in Hlen; unfold int32_max in Hlen; lia | ].
    cbn [List.length Nat.eqb].
    destruct (get_dimensions_run w h "get_secret_thumbnail_photo_size" st)
      as (lines & st1 & E & _).
    unfold bind at 1. rewrite E. unfold bind at 1, CHECK.
    replace (Z.of_nat (S (List.length content)) <=? int32_max) with false
      by (symmetry; apply Z.leb_gt; exact Hlen).
    reflexivity.
Qed.

(** ** [get_thumbnail_object] *)

Lemma get_thumbnail_object_run (photo_size : PhotoSize)
    (format : PhotoFormat) (st : World) :
  (FileId_is_valid (file_id photo_size) = false ->
   get_thumbnail_object photo_size format st = Some (None, st))
  /\ (FileId_is_valid (file_id photo_size) = true ->
      exists th,
        get_thumbnail_object photo_size format st
        = Some (Some th,
                mkWorld (snd (get_file_object (fm st) (file_id photo_size)))
                  (calls st) (log st))
        /\ thumbnail_width_ th = width (dimensions photo_size)
        /\ thumbnail_height_ th = height (dimensions photo_size)
        /\ thumbnail_file_ th
           = fst (get_file_object (fm st) (file_id photo_size))
        /\ (format = Jpeg -> type photo_size = tag_g ->
            thumbnail_format_ th = thumbnailFormatGif)
        /\ (format <> Jpeg \/ type photo_size <> tag_g ->
            thumbnail_format_ th = get_thumbnail_format_object format)).
Proof.
  unfold get_thumbnail_object.
  split; intros Hv; rewrite Hv; cbn [negb]; [ reflexivity | ].
  unfold bind, call_get_file_object, ret.
  destruct (get_file_object (fm st) (file_id photo_size)) as [obj fm'].
  eexists. split; [ reflexivity | ].
  cbn [thumbnail_width_ thumbnail_height_ thumbnail_file_ thumbnail_format_
       fst snd].
  do 3 (split; [ reflexivity | ]).
  split.
  - intros -> ->. reflexivity.
  - intros [Hf | Ht].
    + destruct format; try reflexivity. contradiction.
    + destruct (Z.eqb_spec (type photo_size) tag_g); [ contradiction | ].
      now rewrite andb_false_r.
Qed.

(** X19: a descriptor without a valid file handle has no thumbnail object,
    and asking for it changes nothing; a descriptor with a valid handle has
    one, with the width and height of the descriptor and the object that the
    file manager builds for the handle, no call being recorded and no line
    logged; its format is GIF when JPEG is asked for a descriptor tagged
    'g', and the format asked for in every other case. *)
Theorem get_thumbnail_object_result (photo_size : PhotoSize)
    (format : PhotoFormat) (st : World) :
  (FileId_is_valid (file_id photo_size) = false ->
   get_thumbnail_object photo_size format st = Some (None, st))
  /\ (FileId_is_valid (file_id photo_size) = true ->
      exists th,
        get_thumbnail_object photo_size format st
        = Some (Some th,
                mkWorld (snd (get_file_object (fm st) (file_id photo_size)))
                  (calls st) (log st))
        /\ thumbnail_width_ th = width (dimensions photo_size)
        /\ thumbnail_height_ th = height (dimensions photo_size)
        /\ thumbnail_file_ th
           = fst (get_file_object (fm st) (file_id photo_size))
        /\ (format = Jpeg -> type photo_size = tag_g ->
            thumbnail_format_ th = thumbnailFormatGif)
        /\ (format <> Jpeg \/ type photo_size <> tag_g ->
            thumbnail_format_ th = get_thumbnail_format_object format)).
Proof. exact (get_thumbnail_object_run photo_size format st). Qed.

(** X20: the descriptor that [get_web_document_photo_size] returns has a
    thumbnail object exactly when it is not the empty descriptor. *)
Theorem get_web_document_thumbnail (file_type : FileType) (owner : Z)
    (web_document_ptr : option WebDocument) (format : PhotoFormat)
    (st st' : World) (res : PhotoSize) :
  get_web_document_photo_size file_type owner web_document_ptr st
  = Some (res, st') ->
  exists r st'',
    get_thumbnail_object res format st' = Some (r, st'')
    /\ (r = None <-> res = PhotoSize_default).
Proof.
  intros H. apply get_web_document_photo_size_cases in H.
  destruct (get_thumbnail_object_run res format st') as [Hnone Hsome].
  destruct H as [-> | (Hv & _)].
  - exists None, st'. split; [ now apply Hnone | ]. split; reflexivity.
  - destruct (Hsome Hv) as (th & E & _).
    eexists _, _. split; [ exact E | ].
    split; [ discriminate | ].
    intros ->. discriminate Hv.
Qed.

End MoreDecoderProperties.

(** X21: the formats have distinct file extensions and distinct thumbnail
    format objects. *)
Theorem PhotoFormat_distinct (f g : PhotoFormat) :
  (PhotoFormat_to_string f = PhotoFormat_to_string g -> f = g)
  /\ (get_thumbnail_format_object f = get_thumbnail_format_object g -> f = g).
Proof.
  split; destruct f, g; intros H; try reflexivity; discriminate H.
Qed.

(** * Equality of animation sizes as a relation *)

Lemma binary_round_abs prec emax m e :
  SpecFloat.SFabs (SpecFloat.binary_round prec emax true m e)
  = SpecFloat.SFabs (SpecFloat.binary_round prec emax false m e).
Proof.
  unfold SpecFloat.binary_round.
  destruct (SpecFloat.shl_align _ _ _) as [mz ez].
  unfold SpecFloat.binary_round_aux.
  destruct (SpecFloat.shr_fexp _ _ _ _ _) as [mrs' e'].
  destruct (SpecFloat.shr_fexp _ _ _ _ _) as [mrs'' e''].
  destruct (SpecFloat.shr_m mrs''); try reflexivity.
  destruct (Z.leb _ _); reflexivity.
Qed.

Lemma binary_normalize_abs prec emax m e :
  SpecFloat.SFabs (SpecFloat.binary_normalize prec emax (- m) e false)
  = SpecFloat.SFabs (SpecFloat.binary_normalize prec emax m e false).
Proof.
  destruct m; cbn [Z.opp SpecFloat.binary_normalize]; try reflexivity.
  - apply binary_round_abs.
  - symmetry. apply binary_round_abs.
Qed.

Lemma SFsub_abs_sym prec emax x y :
  SpecFloat.SFabs (SpecFloat.SFsub prec emax x y)
  = SpecFloat.SFabs (SpecFloat.SFsub prec emax y x).
Proof.
  destruct x as [sx | sx | | sx mx ex], y as [sy | sy | | sy my ey];
    try (destruct sx, sy; reflexivity); try (destruct sx; reflexivity);
    try (destruct sy; reflexivity); try reflexivity.
  cbn [SpecFloat.SFsub]. rewrite (Z.min_comm ey ex).
  rewrite <- binary_normalize_abs. f_equal. f_equal. lia.
Qed.

Lemma SFsub_self prec emax x :
  SpecFloat.SFabs (SpecFloat.SFsub prec emax x x) =
  match x with
  | SpecFloat.S754_nan | SpecFloat.S754_infinity _ => SpecFloat.S754_nan
  | _ => SpecFloat.S754_zero false
  end.
Proof.
  destruct x as [sx | sx | | sx mx ex]; try (destruct sx); try reflexivity.
  all: cbn [SpecFloat.SFsub]; rewrite Z.sub_diag; reflexivity.
Qed.

Lemma ltb_abs_sub_sym (x y t : float) :
  ltb (abs (sub x y)) t = ltb (abs (sub y x)) t.
Proof.
  rewrite !FloatAxioms.ltb_spec, !FloatAxioms.abs_spec, !FloatAxioms.sub_spec.
  unfold FloatAxioms.SF64sub. now rewrite SFsub_abs_sym.
Qed.

Lemma SFcompare_refl s :
  SpecFloat.SFcompare s s
  = match s with SpecFloat.S754_nan => None | _ => Some Eq end.
Proof.
  destruct s as [sx | sx | | sx mx ex]; cbn; try (destruct sx; reflexivity);
    try reflexivity.
  rewrite Z.compare_refl.
  change (Pos.compare_cont Eq mx mx) with (Pos.compare mx mx).
  rewrite Pos.compare_refl. now destruct sx.
Qed.

Lemma is_finite_SF (x : float) :
  PrimFloat.is_finite x = match FloatOps.Prim2SF x with
                | SpecFloat.S754_nan | SpecFloat.S754_infinity _ => false
                | _ => true
                end.
Proof.
  unfold PrimFloat.is_finite, PrimFloat.is_nan, PrimFloat.is_infinity.
  rewrite !FloatAxioms.eqb_spec, FloatAxioms.abs_spec.
  unfold SpecFloat.SFeqb. rewrite SFcompare_refl.
  replace (FloatOps.Prim2SF infinity) with (SpecFloat.S754_infinity false)
    by (vm_compute; reflexivity).
  destruct (FloatOps.Prim2SF x) as [sx | sx | | sx mx ex]; reflexivity.
Qed.
Lemma ltb_abs_sub_self (x : float) :
  ltb (abs (sub x x)) tolerance = PrimFloat.is_finite x.
Proof.
  rewrite is_finite_SF.
  rewrite FloatAxioms.ltb_spec, FloatAxioms.abs_spec, FloatAxioms.sub_spec.
  unfold FloatAxioms.SF64sub. rewrite SFsub_self.
  replace (FloatOps.Prim2SF tolerance)
    with (SpecFloat.S754_finite false 4611686018427388 (-62))
    by (vm_compute; reflexivity).
  destruct (FloatOps.Prim2SF x) as [sx | sx | | sx mx ex]; reflexivity.
Qed.

(** X22: [operator==] on animation sizes is symmetric; an animation size is
    equal to itself exactly when its timestamp is finite (with a NaN or an
    infinite timestamp it is not); and the relation is not transitive, the
    tolerance letting 1.0000 equal 1.0009 and 1.0009 equal 1.0018 while
    1.0000 differs from 1.0018. *)
Theorem AnimationSize_eqb_relation :
  (forall a b, AnimationSize_eqb a b = AnimationSize_eqb b a)
  /\ (forall a, AnimationSize_eqb a a
                = PrimFloat.is_finite (main_frame_timestamp a))
  /\ ~ (forall a b c,
          AnimationSize_eqb a b = true -> AnimationSize_eqb b c = true ->
          AnimationSize_eqb a c = true).
Proof.
  assert (Hrefl : forall p, PhotoSize_eqb p p = true)
    by (intros p; now apply PhotoSize_eqb_eq).
  split; [ | split ].
  - intros a b. unfold AnimationSize_eqb.
    rewrite ltb_abs_sub_sym. f_equal.
    destruct (PhotoSize_eqb (as_photo_size a) (as_photo_size b)) eqn:Hab,
      (PhotoSize_eqb (as_photo_size b) (as_photo_size a)) eqn:Hba;
      try reflexivity.
    + apply PhotoSize_eqb_eq in Hab. rewrite Hab, Hrefl in Hba.
      discriminate Hba.
    + apply PhotoSize_eqb_eq in Hba. rewrite Hba, Hrefl in Hab.
      discriminate Hab.
  - intros a. unfold AnimationSize_eqb.
    now rewrite Hrefl, ltb_abs_sub_self.
  - intros Htrans.
    specialize (Htrans (mkAnimationSize PhotoSize_default timestamp_1_0000)
                  (mkAnimationSize PhotoSize_default timestamp_1_0009)
                  (mkAnimationSize PhotoSize_default timestamp_1_0018)).
    assert (H : false = true)
      by (apply Htrans; vm_compute; reflexivity).
    discriminate H.
Qed.

(** * Further concrete runs *)

Lemma get_dimensions_log_witness :
  exists d,
    get_dimensions (env := counting_env) 0 70000 "photoSize" world0
    = Some (d, @mkWorld counting_env 0 []
                 [(ERROR, Wrong_image_dimension 70000 "photoSize"%string)])
    /\ d = mkDimensions 0 0.
Proof.
  destruct (@get_dimensions_log counting_env 0 70000 "photoSize" world0)
    as (d & E & Hz).
  exists d. split; [ exact E | ]. apply Hz. now left.
Defined.


Lemma get_photo_size_path_witness :
  get_photo_size (env := counting_env) (Source_other 0) 1 2 [] 3 4
    (Some (photoPathSize "j" [x01; x02])) Jpeg world0
  = Some (inl PhotoSize_default,
          @mkWorld counting_env 0 []
            [(ERROR, Unexpected_SVG_minithumbnail 1 (Source_other 0) Jpeg)]).
Proof.
  apply (proj2 (@get_photo_size_path counting_env (Source_other 0) 1 2 [] 3 4
                  "j" [x01; x02] Jpeg world0)); discriminate.
Defined.

Lemma get_photo_size_inline_witness :
  world0 = world0
  /\ ((exists t, photoStrippedSize "i" [x01; x0a; x14]
                 = photoStrippedSize t [x01; x0a; x14] /\ Jpeg = Jpeg)
      \/ (exists t, photoStrippedSize "i" [x01; x0a; x14]
                    = photoPathSize t [x01; x0a; x14]
                    /\ (Jpeg = Tgs \/ Jpeg = Webp \/ Jpeg = Webm))).
Proof.
  apply (@get_photo_size_inline counting_env (Source_other 0) 1 2 [] 3 4
           (photoStrippedSize "i" [x01; x0a; x14]) Jpeg world0 world0
           [x01; x0a; x14]).
  reflexivity.
Defined.

Lemma get_photo_size_well_formed_witness :
  exists res st',
    get_photo_size (env := counting_env)
      (Source_Thumbnail FileType_Thumbnail 0) 1 2 [] 3 4
      (Some cached_untagged) Jpeg world0 = Some (inl res, st')
    /\ 0 <= type res < 128
    /\ PhotoSize_typed res /\ Dimensions_inv (dimensions res).
Proof.
  eexists _, _. split; [ vm_compute; reflexivity | ].
  eapply (@get_photo_size_well_formed counting_env
            (Source_Thumbnail FileType_Thumbnail 0) 1 2 [] 3 4
            cached_untagged Jpeg world0).
  vm_compute. reflexivity.
Defined.

Lemma get_photo_size_registers_witness :
  exists res st',
    get_photo_size (env := counting_env)
      (Source_Thumbnail FileType_Thumbnail 0) 1 2 [] 3 4
      (Some (photoSize "m" 320 200 4096)) Png world0 = Some (inl res, st')
    /\ calls st'
       = [Call_register_remote
            (PhotoRemoteLocation (Source_Thumbnail FileType_Thumbnail 109)
               1 2 3 [])
            FromServer 4 4096 0 "photo.png"].
Proof.
  destruct (@get_photo_size_registers counting_env
              (Source_Thumbnail FileType_Thumbnail 0) 1 2 [] 3 4
              (photoSize "m" 320 200 4096) Png world0 I)
    as (res & st' & rest & E & Hc & _ & Hrest).
  exists res, st'. split; [ exact E | ].
  assert (Et : type res = 109 /\ size res = 4096).
  { cbv in E. injection E as <- _. split; reflexivity. }
  destruct Et as [Et Es]. cbv zeta in Hc. rewrite Et, Es in Hc.
  rewrite Hc. destruct Hrest as [-> | ->]; [ reflexivity | ].
  cbv in E. injection E as _ E. rewrite <- E in Hc. discriminate Hc.
Defined.

Lemma get_web_document_photo_size_url_witness :
  exists d lines,
    get_web_document_photo_size (env := counting_env) FileType_Thumbnail 4
      (Some web_gif) world0
    = Some (mkPhotoSize 103 d 512 (mkFileId 1) [],
            @mkWorld counting_env 1
              [Call_register_remote
                 (WebRemoteLocation FileType_Thumbnail
                    "https://example.org/a.gif" 7)
                 FromServer 4 0 512 "https://example.org/a.gif"]
              lines)
    /\ Dimensions_inv d /\ Dimensions_typed d.
Proof.
  apply (proj2 (@get_web_document_photo_size_url counting_env
                  FileType_Thumbnail 4 "https://example.org/a.gif" 7 512
                  "image/gif"
                  [documentAttributeAudio; documentAttributeImageSize 10 20;
                   documentAttributeFilename "a.gif"] world0)
           "https://example.org/a.gif"%string eq_refl).
  reflexivity.
Defined.

Lemma get_web_document_photo_size_no_proxy_witness :
  get_web_document_photo_size (env := counting_env) FileType_Thumbnail 4
    (Some web_no_dot) world0
  = Some (PhotoSize_default,
          @mkWorld counting_env 0 [] [(ERROR, Invalid_URL "reference")]).
Proof.
  apply (proj1 (@get_web_document_photo_size_no_proxy counting_env
                  FileType_Thumbnail 4 "reference" 512 "image/png" []
                  world0)).
  reflexivity.
Defined.

Lemma get_web_document_photo_size_well_formed_witness :
  exists res st',
    get_web_document_photo_size (env := counting_env) FileType_Thumbnail 4
      (Some web_gif) world0 = Some (res, st')
    /\ (res = PhotoSize_default
        \/ (FileId_is_valid (file_id res) = true
            /\ (type res = tag_v \/ type res = tag_g
                \/ (type res = tag_t
                    /\ FileType_Thumbnail = FileType_Thumbnail)
                \/ (type res = tag_n
                    /\ FileType_Thumbnail <> FileType_Thumbnail))
            /\ progressive_sizes res = []
            /\ PhotoSize_typed res
            /\ Dimensions_inv (dimensions res))).
Proof.
  eexists _, _. split; [ vm_compute; reflexivity | ].
  eapply (@get_web_document_photo_size_well_formed counting_env
            FileType_Thumbnail 4 (Some web_gif) world0).
  vm_compute. reflexivity.
Defined.

Lemma get_web_document_thumbnail_witness :
  exists res st' r st'',
    get_web_document_photo_size (env := counting_env) FileType_Thumbnail 4
      (Some web_gif) world0 = Some (res, st')
    /\ get_thumbnail_object (objs := counting_objs) res Jpeg st'
       = Some (r, st'')
    /\ (r = None <-> res = PhotoSize_default).
Proof.
  eexists _, _.
  assert (E : get_web_document_photo_size (env := counting_env)
                FileType_Thumbnail 4 (Some web_gif) world0
              = Some (mkPhotoSize 103 (mkDimensions 10 20) 512 (mkFileId 1) [],
                      @mkWorld counting_env 1
                        [Call_register_remote
                           (WebRemoteLocation FileType_Thumbnail
                              "https://example.org/a.gif" 7)
                           FromServer 4 0 512 "https://example.org/a.gif"]
                        [(ERROR, Unexpected_web_document_attribute
                                   documentAttributeAudio)]))
    by (vm_compute; reflexivity).
  destruct (@get_web_document_thumbnail counting_env counting_objs
              FileType_Thumbnail 4 (Some web_gif) Jpeg world0 _ _ E)
    as (r & st'' & Eth & Hiff).
  exists r, st''. split; [ exact E | split; [ exact Eth | exact Hiff ] ].
Defined.

Lemma get_secret_thumbnail_photo_size_result_witness :
  exists lines,
    get_secret_thumbnail_photo_size (env := counting_env)
      (objs := counting_objs) (-5) [x01; x02] 7 10 20 world0
    = Some (mkPhotoSize 116 (mkDimensions 10 20) 2 (mkFileId 1) [],
            @mkWorld counting_env 1
              [Call_register_remote
                 (PhotoRemoteLocation
                    (Source_Thumbnail (FileType_other 11) 116)
                    (-9223372036854775803) 0 0 [])
                 FromServer 7 2 0 "9223372036854775813.jpg";
               Call_set_content (mkFileId 1) [x01; x02]]
              lines).
Proof.
  assert (Hne : [x01; x02] <> @nil byte) by discriminate.
  assert (Hlen : Z.of_nat (List.length [x01; x02]) <= int32_max)
    by (cbn; unfold int32_max; lia).
  destruct (proj1 (proj2 (@get_secret_thumbnail_photo_size_result
                            counting_env counting_objs (-5) [x01; x02] 7 10 20
                            world0)) Hne Hlen) as (_ & lines & E).
  exists lines. exact E.
Defined.

Lemma get_thumbnail_object_result_witness :
  exists th st',
    get_thumbnail_object (objs := counting_objs)
      (mkPhotoSize 103 (mkDimensions 10 20) 512 (mkFileId 1) []) Jpeg world0
    = Some (Some th, st')
    /\ thumbnail_format_ th = thumbnailFormatGif.
Proof.
  destruct (proj2 (@get_thumbnail_object_result counting_env counting_objs
                     (mkPhotoSize 103 (mkDimensions 10 20) 512 (mkFileId 1) [])
                     Jpeg world0) eq_refl)
    as (th & E & _ & _ & _ & Hgif & _).
  exists th. eexists. split; [ exact E | ].
  apply Hgif; reflexivity.
Defined.

Lemma get_photo_size_progressive_order_witness :
  get_photo_size (env := counting_env) (Source_other 0) 1 2 [] 3 4
    (Some (photoSizeProgressive "y" 800 600 [100; 50; 300])) Jpeg world0
  = get_photo_size (env := counting_env) (Source_other 0) 1 2 [] 3 4
      (Some (photoSizeProgressive "y" 800 600 [300; 100; 50])) Jpeg world0.
Proof.
  apply (@get_photo_size_progressive_order counting_env).
  apply Permutation_sym, (Permutation_cons_app [100; 50] []).
  apply Permutation_refl.
Defined.

Lemma get_photo_size_results_ordered_witness :
  (PhotoSize_ltb (mkPhotoSize 109 (mkDimensions 320 200) 4096 (mkFileId 1) [])
                 (mkPhotoSize 120 (mkDimensions 640 400) 9000 (mkFileId 1) [])
   = true
   /\ PhotoSize_ltb
        (mkPhotoSize 120 (mkDimensions 640 400) 9000 (mkFileId 1) [])
        (mkPhotoSize 109 (mkDimensions 320 200) 4096 (mkFileId 1) []) = false)
  \/ (PhotoSize_ltb
        (mkPhotoSize 109 (mkDimensions 320 200) 4096 (mkFileId 1) [])
        (mkPhotoSize 120 (mkDimensions 640 400) 9000 (mkFileId 1) []) = false
      /\ PhotoSize_ltb
           (mkPhotoSize 120 (mkDimensions 640 400) 9000 (mkFileId 1) [])
           (mkPhotoSize 109 (mkDimensions 320 200) 4096 (mkFileId 1) [])
         = true).
Proof.
  eapply (@get_photo_size_results_ordered counting_env
            (Source_other 0) (Source_other 0) 1 1 2 2 [] [] 3 3 4 4
            (photoSize "m" 320 200 4096) (photoSize "x" 640 400 9000)
            Png Png world0 _ world0 _).
  - vm_compute. reflexivity.
  - vm_compute. reflexivity.
  - left. discriminate.
Defined.

Lemma get_pixel_count_exact_witness :
  get_pixel_count (mkDimensions 65535 65535) = 65535 * 65535.
Proof.
  apply (get_pixel_count_exact (mkDimensions 65535 65535)).
  unfold Dimensions_typed, is_uint16. cbn. lia.
Defined.
